(** * Appointment slots and booking validation (main/models.py, main/admin.py)

    A shallow embedding of the domain logic of the hospital application:
    [Schedule.available_slots], [Appointment.clean], [Appointment.save],
    the booking view and the admin actions that change the status of
    appointments, together with the properties the specification states
    about them; then the admin's slot counts, the slugs of hospitals and
    patients, the age of a patient, the opening hours of a hospital and the
    short form of a diagnosis, with the properties the code itself shows. *)

From Stdlib Require Import ZArith List Bool Lia Sorted.
From Stdlib Require Ascii String DecimalString DecimalNat Finite.
Import String.StringSyntax.
Delimit Scope string_scope with string.
Import ListNotations.
Local Open Scope Z_scope.

(** ** Times of day and datetimes *)

Module Time.

(** [datetime.time]: a naive wall-clock time with microsecond resolution. *)
Record time : Type := mkTime {
  hour : Z;
  minute : Z;
  second : Z;
  microsecond : Z
}.

(** The ranges [datetime.time] enforces on its fields. *)
Definition valid_time (t : time) : Prop :=
  0 <= hour t < 24 /\ 0 <= minute t < 60 /\ 0 <= second t < 60 /\
  0 <= microsecond t < 1000000.

Definition US_PER_MINUTE : Z := 60000000.
Definition US_PER_DAY : Z := 86400000000.

(** Microseconds elapsed since midnight. *)
Definition to_us (t : time) : Z :=
  ((hour t * 60 + minute t) * 60 + second t) * 1000000 + microsecond t.

Definition of_us (n : Z) : time :=
  {| hour := n / 3600000000;
     minute := (n / 60000000) mod 60;
     second := (n / 1000000) mod 60;
     microsecond := n mod 1000000 |}.

(** Comparison of naive times compares (hour, minute, second, microsecond)
    lexicographically, that is, the microsecond counts. *)
Definition time_leb (a b : time) : bool := to_us a <=? to_us b.
Definition time_lt (a b : time) : Prop := to_us a < to_us b.

(** [hm h m] is the time written hh:mm. *)
Definition hm (h m : Z) : time := mkTime h m 0 0.

(** [datetime.date] as its proleptic ordinal ([date.toordinal()]). *)
Definition date : Type := Z.

(** [date.weekday()]: Monday is 0, Sunday is 6. *)
Definition weekday (d : date) : Z := (d + 6) mod 7.

(** A naive [datetime.datetime] as microseconds since the midnight that
    starts ordinal 0.  The range check of [datetime] (years 1..9999, beyond
    which arithmetic raises OverflowError) is not modelled. *)
Definition datetime : Type := Z.

(** [datetime.combine(d, t)] *)
Definition combine (d : date) (t : time) : datetime := d * US_PER_DAY + to_us t.

(** [dt.time()] *)
Definition time_of (dt : datetime) : time := of_us (dt mod US_PER_DAY).

(** [timedelta(minutes=m)] in microseconds. *)
Definition timedelta_minutes (m : Z) : Z := m * US_PER_MINUTE.

End Time.
Import Time.

(** ** Schedules *)

(** The fields of [Schedule] the logic reads.  [sched_doctor] is the field
    [doctor], the primary key of the referenced [Doctor];
    [appointment_duration] is in minutes. *)
Record Schedule : Type := mkSchedule {
  sched_doctor : Z;
  day_of_week : Z;
  start_time : time;
  end_time : time;
  is_working : bool;
  appointment_duration : Z
}.

(** The [while] loop of [Schedule.available_slots].  Each unit of [fuel] pays
    for one evaluation of the loop condition; [None] means the loop is still
    running when the fuel is spent. *)
Fixpoint slots_loop (fuel : nat) (current end_ step : Z) (slots : list time)
  : option (list time) :=
  match fuel with
  | O => None
  | S fuel' =>
      if current + step <=? end_
      then slots_loop fuel' (current + step) end_ step (slots ++ [time_of current])
      else Some slots
  end.

(** [Schedule.available_slots], given the date [datetime.today()] returns
    (read twice by the code; both reads are taken to fall on the same day). *)
Definition available_slots (fuel : nat) (today : date) (s : Schedule)
  : option (list time) :=
  slots_loop fuel
    (combine today (start_time s))
    (combine today (end_time s))
    (timedelta_minutes (appointment_duration s))
    [].

(** The slot times the specification describes: [start + k * duration] for
    [k = 0, ..., n - 1]. *)
Definition slot_at (s : Schedule) (k : Z) : time :=
  of_us (to_us (start_time s) + k * timedelta_minutes (appointment_duration s)).

Definition slot_count (s : Schedule) : Z :=
  (to_us (end_time s) - to_us (start_time s))
    / timedelta_minutes (appointment_duration s).

Definition slot_table (s : Schedule) (n : nat) : list time :=
  map (fun k => slot_at s (Z.of_nat k)) (seq 0 n).

(** The times the loop appends when it starts at [current] and goes round
    [n] times. *)
Definition visited (step current : Z) (n : nat) : list time :=
  map (fun k => time_of (current + Z.of_nat k * step)) (seq 0 n).

(** [n] is the number of whole steps that fit between [current] and the
    end. *)
Definition fits (end_ step current : Z) (n : nat) : Prop :=
  (n = 0%nat \/ current + Z.of_nat n * step <= end_) /\
  end_ < current + (Z.of_nat n + 1) * step.

(** ** Appointments *)

(** [Appointment.STATUS_CHOICES] *)
Inductive Status : Type := pending | confirmed | cancelled.

(** The fields of [Appointment] the logic reads.  [pk] is [None] until the
    row has been inserted; [patient] and [doctor] are primary keys. *)
Record Appointment : Type := mkAppointment {
  pk : option Z;
  patient : Z;
  doctor : Z;
  appointment_date : date;
  appointment_time : time;
  status : Status
}.

(** The two tables the validation queries, rows in the order the backend
    returns them. *)
Record Database : Type := mkDatabase {
  appointments : list Appointment;
  schedules : list Schedule
}.

(** The three messages [Appointment.clean] raises, under the names the
    specification gives them. *)
Inductive ValidationError : Type :=
  | SlotTaken    (* 'На это время уже есть запись к этому врачу' *)
  | PastDate     (* 'Нельзя записаться на прошедшую дату' *)
  | OutOfHours.  (* 'Время приема не входит в рабочие часы врача' *)

(** Code that either returns or raises a ValidationError. *)
Inductive result (A : Type) : Type :=
  | Ok (a : A)
  | Raise (e : ValidationError).
Arguments Ok {A} a.
Arguments Raise {A} e.

Definition bind {A B : Type} (m : result A) (k : A -> result B) : result B :=
  match m with
  | Ok a => k a
  | Raise e => Raise e
  end.

Notation "m ;; k" := (bind m (fun _ => k))
  (at level 61, right associativity).

(** [if c: raise ValidationError(e)] *)
Definition raise_if (c : bool) (e : ValidationError) : result unit :=
  if c then Raise e else Ok tt.

Definition time_eqb (a b : time) : bool :=
  (hour a =? hour b) && (minute a =? minute b) &&
  (second a =? second b) && (microsecond a =? microsecond b).

Definition pk_eqb (p q : option Z) : bool :=
  match p, q with
  | Some a, Some b => a =? b
  | None, None => true
  | _, _ => false
  end.

(** [status in ['pending', 'confirmed']] *)
Definition is_active (s : Status) : bool :=
  match s with
  | pending | confirmed => true
  | cancelled => false
  end.

(** The three equality filters on doctor, appointment_date and
    appointment_time. *)
Definition same_slot (self a : Appointment) : bool :=
  (doctor a =? doctor self) &&
  (appointment_date a =? appointment_date self) &&
  time_eqb (appointment_time a) (appointment_time self).

(** Truth value of [self.pk]: [None] and 0 are false. *)
Definition pk_truthy (p : option Z) : bool :=
  match p with
  | Some k => negb (k =? 0)
  | None => false
  end.

(** [.exclude(pk=self.pk if self.pk else None)]: with a key, the row of that
    key is dropped; [exclude(pk=None)] drops the rows whose key is null, and
    the key column has none. *)
Definition not_excluded (self a : Appointment) : bool :=
  if pk_truthy (pk self) then negb (pk_eqb (pk a) (pk self)) else true.

Definition conflicting_appointments (db : Database) (self : Appointment)
  : list Appointment :=
  filter (fun a => same_slot self a && is_active (status a) && not_excluded self a)
         (appointments db).

(** [QuerySet.exists()] *)
Definition exists_ {A : Type} (q : list A) : bool :=
  match q with
  | [] => false
  | _ :: _ => true
  end.

(** [QuerySet.first()] *)
Definition first {A : Type} (q : list A) : option A :=
  match q with
  | [] => None
  | x :: _ => Some x
  end.

(** [self.doctor.schedules.filter(day_of_week=dow, is_working=True)] *)
Definition working_schedules (db : Database) (doc : Z) (dow : Z) : list Schedule :=
  filter (fun s => (day_of_week s =? dow) && is_working s)
         (filter (fun s => sched_doctor s =? doc) (schedules db)).

(** [Appointment.clean], with [today] the value of [timezone.now().date()].
    The test [if self.appointment_date:] always succeeds on a date. *)
Definition clean (today : date) (db : Database) (self : Appointment) : result unit :=
  (if is_active (status self)
   then raise_if (exists_ (conflicting_appointments db self)) SlotTaken
   else Ok tt) ;;
  raise_if (appointment_date self <? today) PastDate ;;
  match first (working_schedules db (doctor self) (weekday (appointment_date self))) with
  | Some schedule =>
      raise_if (negb (time_leb (start_time schedule) (appointment_time self) &&
                      time_leb (appointment_time self) (end_time schedule)))
               OutOfHours
  | None => Ok tt
  end.

(** ** Persistence *)

Definition set_pk (a : Appointment) (k : Z) : Appointment :=
  mkAppointment (Some k) (patient a) (doctor a) (appointment_date a)
                (appointment_time a) (status a).

Definition set_status (a : Appointment) (st : Status) : Appointment :=
  mkAppointment (pk a) (patient a) (doctor a) (appointment_date a)
                (appointment_time a) st.

Definition has_pk (k : Z) (a : Appointment) : bool := pk_eqb (pk a) (Some k).

(** The key an auto-incremented column hands out next. *)
Definition next_pk (rows : list Appointment) : Z :=
  1 + fold_right (fun a m => match pk a with Some k => Z.max k m | None => m end)
                 0 rows.

(** The constraint [unique_appointment_time] of [Appointment.Meta]: unique
    (doctor, appointment_date, appointment_time) among the rows whose status
    is pending or confirmed. *)
Fixpoint unique_appointment_time (rows : list Appointment) : bool :=
  match rows with
  | [] => true
  | a :: rest =>
      negb (is_active (status a) &&
            existsb (fun b => is_active (status b) && same_slot a b) rest)
      && unique_appointment_time rest
  end.

(** [Model.save]: the row of the instance's key is updated; without a key,
    or without a row of that key, a row is inserted. *)
Definition write_row (rows : list Appointment) (self : Appointment)
  : list Appointment * Z :=
  match pk self with
  | Some k =>
      if existsb (has_pk k) rows
      then (map (fun a => if has_pk k a then self else a) rows, k)
      else (rows ++ [self], k)
  | None =>
      let k := next_pk rows in (rows ++ [set_pk self k], k)
  end.

Inductive save_outcome : Type :=
  | Saved (db' : Database) (key : Z)
  | Invalid (e : ValidationError)
  | IntegrityError.

(** [Appointment.save]: [self.full_clean()] then [super().save()].  Of
    [full_clean] the model's own [clean] is embedded; the statement that
    writes the row is refused by the backend when it breaks the constraint. *)
Definition save (today : date) (db : Database) (self : Appointment) : save_outcome :=
  match clean today db self with
  | Raise e => Invalid e
  | Ok _ =>
      let (rows', k) := write_row (appointments db) self in
      if unique_appointment_time rows'
      then Saved (mkDatabase rows' (schedules db)) k
      else IntegrityError
  end.

(** The appointment [create_appointment_htmx] builds:
    [Appointment.objects.create(..., status='pending')]. *)
Definition new_appointment (pat doc : Z) (d : date) (t : time) : Appointment :=
  mkAppointment None pat doc d t pending.

Definition create (today : date) (db : Database) (pat doc : Z) (d : date) (t : time)
  : save_outcome :=
  save today db (new_appointment pat doc d t).

(** The rows of an admin action's queryset, given by their keys. *)
Definition selected (sel : list Z) (a : Appointment) : bool :=
  match pk a with
  | Some k => existsb (Z.eqb k) sel
  | None => false
  end.

(** [queryset.update(status=st)]: one UPDATE statement, which writes the rows
    directly ([save] and [clean] are not called); [None] is the
    IntegrityError of the constraint. *)
Definition update_status (db : Database) (sel : list Z) (st : Status)
  : option Database :=
  let rows' := map (fun a => if selected sel a then set_status a st else a)
                   (appointments db) in
  if unique_appointment_time rows'
  then Some (mkDatabase rows' (schedules db))
  else None.

(** [AppointmentAdmin.confirm_appointments] *)
Definition confirm_appointments (db : Database) (sel : list Z) : option Database :=
  update_status db sel confirmed.

(** [AppointmentAdmin.cancel_appointments] *)
Definition cancel_appointments (db : Database) (sel : list Z) : option Database :=
  update_status db sel cancelled.

(** One appointment operation. *)
Inductive step : Database -> Database -> Prop :=
  | step_create today db pat doc d t db' k :
      create today db pat doc d t = Saved db' k -> step db db'
  | step_save today db self db' k :
      save today db self = Saved db' k -> step db db'
  | step_confirm db sel db' :
      confirm_appointments db sel = Some db' -> step db db'
  | step_cancel db sel db' :
      cancel_appointments db sel = Some db' -> step db db'.

(** The states the operations produce, from a database with no
    appointments. *)
Inductive reachable : Database -> Prop :=
  | reachable_init scheds : reachable (mkDatabase [] scheds)
  | reachable_step db db' : reachable db -> step db db' -> reachable db'.

(** ** Vocabulary of the properties *)

(** Row [a] is a pending or confirmed appointment of doctor [doc] on date
    [d] at time [t]. *)
Definition active_at (doc : Z) (d : date) (t : time) (a : Appointment) : bool :=
  is_active (status a) && (doctor a =? doc) && (appointment_date a =? d) &&
  time_eqb (appointment_time a) t.

(** Some stored appointment for the slot of [self] is pending or confirmed. *)
Definition slot_taken (db : Database) (self : Appointment) : Prop :=
  exists b, In b (appointments db) /\
            doctor b = doctor self /\
            appointment_date b = appointment_date self /\
            appointment_time b = appointment_time self /\
            (status b = pending \/ status b = confirmed).

(** [sch] is a working schedule of the doctor of [self] for the weekday of
    its date. *)
Definition working_schedule_for (db : Database) (self : Appointment) (sch : Schedule)
  : Prop :=
  In sch (schedules db) /\ sched_doctor sch = doctor self /\
  day_of_week sch = weekday (appointment_date self) /\ is_working sch = true.

(** The schedule the validation reads the working hours from. *)
Definition schedule_of (db : Database) (self : Appointment) : option Schedule :=
  first (working_schedules db (doctor self) (weekday (appointment_date self))).

Definition within_hours (sch : Schedule) (t : time) : Prop :=
  to_us (start_time sch) <= to_us t <= to_us (end_time sch).

(** The constraint [unique_schedule_per_day] of [Schedule.Meta]. *)
Definition unique_schedule_per_day (scheds : list Schedule) : Prop :=
  forall s1 s2, In s1 scheds -> In s2 scheds ->
    sched_doctor s1 = sched_doctor s2 -> day_of_week s1 = day_of_week s2 ->
    s1 = s2.

(** Stored row [b] counts against [self] in the conflict query: same doctor,
    date and time, pending or confirmed, and not the row of [self]. *)
Definition counts_against (self b : Appointment) : Prop :=
  doctor b = doctor self /\
  appointment_date b = appointment_date self /\
  appointment_time b = appointment_time self /\
  (status b = pending \/ status b = confirmed) /\
  (pk_truthy (pk self) = true -> pk b <> pk self).

(** The condition under which the first check of [clean] raises. *)
Definition conflict (db : Database) (self : Appointment) : Prop :=
  (status self = pending \/ status self = confirmed) /\
  exists b, In b (appointments db) /\ counts_against self b.

(** The condition under which the last check of [clean] raises. *)
Definition outside_hours (db : Database) (self : Appointment) : Prop :=
  exists sch, schedule_of db self = Some sch /\
              ~ within_hours sch (appointment_time self).

(** ** Example data *)

(** The schedule of the specification's example: 09:00 to 12:00 in slots of
    30 minutes. *)
Definition morning_schedule (doc dow : Z) (working : bool) : Schedule :=
  mkSchedule doc dow (hm 9 0) (hm 12 0) working 30.

(** Ordinal 738998 is Monday 2024-04-22: its weekday is 0. *)
Definition a_monday : date := 738998.

(** Doctor 1 works on Mondays from 09:00 to 12:00. *)
Definition monday_clinic : list Schedule := [morning_schedule 1 0 true].

(** A stored appointment of patient 5 with doctor 1. *)
Definition booked (key : Z) (d : date) (t : time) (st : Status) : Appointment :=
  mkAppointment (Some key) 5 1 d t st.

(** Doctor 1 does not work on Mondays. *)
Definition monday_off : list Schedule := [morning_schedule 1 0 false].

Definition the_week_after : date := a_monday + 7.

(** Patient 6 asks for doctor 1 on the Monday at [t]. *)
Definition request (t : time) : Appointment := new_appointment 6 1 a_monday t.

(** The Monday 09:00 slot of doctor 1 is held by a pending appointment. *)
Definition nine_taken : Database :=
  mkDatabase [booked 1 a_monday (hm 9 0) pending] monday_clinic.

(** Appointment 1 was cancelled and appointment 2 then took its slot. *)
Definition rebooked : Database :=
  mkDatabase [booked 1 a_monday (hm 9 0) cancelled;
              mkAppointment (Some 2) 6 1 a_monday (hm 9 0) pending]
             monday_clinic.

(** ** Schedules: validation and the admin's counts *)

(** [Schedule.clean]: [true] when it raises its ValidationError, that is
    when [start_time >= end_time]. *)
Definition Schedule_clean_raises (s : Schedule) : bool :=
  time_leb (end_time s) (start_time s).

Module ScheduleAdmin.

(** The [while] loop of [ScheduleAdmin.total_slots], with fuel as for
    [slots_loop]. *)
Fixpoint total_slots_loop (fuel : nat) (current end_ duration : Z) (slots : Z)
  : option Z :=
  match fuel with
  | O => None
  | S fuel' =>
      if current + duration <=? end_
      then total_slots_loop fuel' (current + duration) end_ duration (slots + 1)
      else Some slots
  end.

(** [ScheduleAdmin.total_slots].  The test [if obj.start_time and
    obj.end_time] succeeds on every time object. *)
Definition total_slots (fuel : nat) (today : date) (obj : Schedule) : option Z :=
  total_slots_loop fuel
    (combine today (start_time obj))
    (combine today (end_time obj))
    (timedelta_minutes (appointment_duration obj))
    0.

(** The count [booked]: the doctor's pending or confirmed appointments
    dated [today]. *)
Definition booked (today : date) (db : Database) (obj : Schedule) : Z :=
  Z.of_nat (length
    (filter (fun a => (doctor a =? sched_doctor obj) &&
                      (appointment_date a =? today) &&
                      is_active (status a))
            (appointments db))).

(** [ScheduleAdmin.available_slots], with [now] the date
    [timezone.now().date()] and [today] the date [total_slots] reads. *)
Definition available_slots (fuel : nat) (today now : date) (db : Database)
           (obj : Schedule) : option Z :=
  match total_slots fuel today obj with
  | Some total => Some (Z.max 0 (total - booked now db obj))
  | None => None
  end.

End ScheduleAdmin.

(** ** Other queries on appointments *)

Definition status_eqb (a b : Status) : bool :=
  match a, b with
  | pending, pending | confirmed, confirmed | cancelled, cancelled => true
  | _, _ => false
  end.

(** [Doctor.upcoming_appointments] for the doctor of key [doc]:
    [appointments.filter(appointment_date__gte=today, status='confirmed')]. *)
Definition upcoming_appointments (today : date) (db : Database) (doc : Z)
  : list Appointment :=
  filter (fun a => (today <=? appointment_date a) && status_eqb (status a) confirmed)
         (filter (fun a => doctor a =? doc) (appointments db)).

(** [Appointment.duration]: the duration of the doctor's schedule for the
    weekday, working or not, and 30 without one. *)
Definition duration (db : Database) (self : Appointment) : Z :=
  match first (filter (fun s => day_of_week s =? weekday (appointment_date self))
                      (filter (fun s => sched_doctor s =? doctor self)
                              (schedules db))) with
  | Some schedule => appointment_duration schedule
  | None => 30
  end.

(** ** Slugs (Hospital.save, Patient.save) *)

Module Slug.

(** [str(counter)] for a counter that is not negative. *)
Definition decimal (n : nat) : String.string :=
  DecimalString.NilEmpty.string_of_uint (Nat.to_uint n).

(** [f'{base_slug}-{counter}'] *)
Definition numbered (base_slug : String.string) (counter : nat) : String.string :=
  String.append base_slug (String.append "-" (decimal counter)).

(** The [while] loop of [Hospital.save] and [Patient.save]; [taken slug] is
    the query [objects.filter(slug=slug).exclude(pk=self.pk).exists()].  Each
    unit of fuel pays for one evaluation of the query. *)
Fixpoint slug_loop (fuel : nat) (taken : String.string -> bool)
         (base_slug slug : String.string) (counter : nat) : option String.string :=
  match fuel with
  | O => None
  | S fuel' =>
      if taken slug
      then slug_loop fuel' taken base_slug (numbered base_slug counter) (S counter)
      else Some slug
  end.

(** [slug = base_slug; counter = 1; while ...] *)
Definition unique_slug (fuel : nat) (taken : String.string -> bool)
           (base_slug : String.string) : option String.string :=
  slug_loop fuel taken base_slug base_slug 1.

(** The slug the loop tries in its round [k]: the base slug first, then the
    base slug with the counter. *)
Definition candidate (base_slug : String.string) (k : nat) : String.string :=
  match k with
  | O => base_slug
  | S _ => numbered base_slug k
  end.

(** [.exclude(pk=self_pk)] keeps this row: with a key, the row of that key
    is dropped; [exclude(pk=None)] drops no row. *)
Definition other_row (self_pk row_pk : option Z) : bool :=
  match self_pk with
  | Some _ => negb (pk_eqb row_pk self_pk)
  | None => true
  end.

End Slug.

Module Hospital.

(** The fields of [Hospital] the logic reads; the hours are whole hours. *)
Record t : Type := mk {
  pk : option Z;
  name : String.string;
  slug : String.string;
  start_time : Z;
  end_time : Z
}.

Definition set_slug (h : t) (s : String.string) : t :=
  mk (pk h) (name h) s (start_time h) (end_time h).

(** [Hospital.objects.filter(slug=s).exclude(pk=self.pk).exists()] *)
Definition slug_taken (rows : list t) (self : t) (s : String.string) : bool :=
  exists_ (filter (fun h => Slug.other_row (pk self) (pk h))
                  (filter (fun h => String.eqb (slug h) s) rows)).

(** What [Hospital.save] does to the instance before it is written:
    a blank slug is replaced; [slugify] is Django's. *)
Definition save (slugify : String.string -> String.string) (fuel : nat)
           (rows : list t) (self : t) : option t :=
  if String.eqb (slug self) ""
  then match Slug.unique_slug fuel (slug_taken rows self) (slugify (name self)) with
       | Some s => Some (set_slug self s)
       | None => None
       end
  else Some self.

(** [Hospital.clean]: [true] when it raises, that is when
    [start_time >= end_time]. *)
Definition clean_raises (h : t) : bool := end_time h <=? start_time h.

(** [Hospital.is_open_now], with [current_hour] the hour of
    [timezone.now()]. *)
Definition is_open_now (current_hour : Z) (h : t) : bool :=
  (start_time h <=? current_hour) && (current_hour <? end_time h).

End Hospital.

Module Calendar.

(** A [datetime.date] by the fields the code reads. *)
Record ymd : Type := mk { year : Z; month : Z; day : Z }.

(** Tuple comparison [(m1, d1) < (m2, d2)]. *)
Definition md_ltb (m1 d1 m2 d2 : Z) : bool :=
  (m1 <? m2) || ((m1 =? m2) && (d1 <? d2)).

(** Comparison of dates: by year, then month, then day. *)
Definition ltb (a b : ymd) : bool :=
  (year a <? year b) ||
  ((year a =? year b) && md_ltb (month a) (day a) (month b) (day b)).

(** The date [k] years after [d], as a (year, month, day) triple. *)
Definition years_after (d : ymd) (k : Z) : ymd := mk (year d + k) (month d) (day d).

End Calendar.

Module Patient.

(** The fields of [Patient] the logic reads. *)
Record t : Type := mk {
  pk : option Z;
  first_name : String.string;
  last_name : String.string;
  slug : String.string;
  date_of_birth : Calendar.ymd
}.

Definition set_slug (p : t) (s : String.string) : t :=
  mk (pk p) (first_name p) (last_name p) s (date_of_birth p).

(** [Patient.objects.filter(slug=s).exclude(pk=self.pk).exists()] *)
Definition slug_taken (rows : list t) (self : t) (s : String.string) : bool :=
  exists_ (filter (fun p => Slug.other_row (pk self) (pk p))
                  (filter (fun p => String.eqb (slug p) s) rows)).

(** What [Patient.save] does to the instance before it is written. *)
Definition save (slugify : String.string -> String.string) (fuel : nat)
           (rows : list t) (self : t) : option t :=
  if String.eqb (slug self) ""
  then match Slug.unique_slug fuel (slug_taken rows self)
               (slugify (String.append (last_name self)
                           (String.append "-" (first_name self)))) with
       | Some s => Some (set_slug self s)
       | None => None
       end
  else Some self.

(** [Patient.clean]: [true] when it raises, that is when
    [date_of_birth > today]. *)
Definition clean_raises (today : Calendar.ymd) (p : t) : bool :=
  Calendar.ltb today (date_of_birth p).

(** [Patient.age]; a comparison that holds counts as 1 in the
    subtraction. *)
Definition age (today : Calendar.ymd) (p : t) : Z :=
  Calendar.year today - Calendar.year (date_of_birth p) -
  (if Calendar.md_ltb (Calendar.month today) (Calendar.day today)
                      (Calendar.month (date_of_birth p))
                      (Calendar.day (date_of_birth p))
   then 1 else 0).

End Patient.

(** ** Medical records (main/admin.py) *)


(** ** More example data *)

(** A stand-in for Django's [slugify] on the one name the examples use. *)
Definition city_slugify (name : String.string) : String.string := "city"%string.

Definition city_hospital : Hospital.t := Hospital.mk (Some 1) "City"%string "city"%string 8 20.

(** A second hospital of the same name, not yet stored, slug blank. *)
Definition second_city_hospital : Hospital.t := Hospital.mk None "City"%string String.EmptyString 9 18.

(** A patient born on 1990-05-17, not yet stored, slug blank. *)
Definition ann_lee : Patient.t :=
  Patient.mk None "ann"%string "lee"%string String.EmptyString
             (Calendar.mk 1990 5 17).

Definition lee_ann_slug : String.string := "lee-ann"%string.

(** ** Facts about times *)

Section TimeFacts.

Lemma to_us_range (t : time) :
  valid_time t -> 0 <= to_us t < US_PER_DAY.
Proof.
  unfold valid_time, to_us, US_PER_DAY. lia.
Qed.

Lemma to_us_of_us (n : Z) :
  0 <= n < US_PER_DAY -> to_us (of_us n) = n.
Proof.
  unfold US_PER_DAY, to_us, of_us; cbn [hour minute second microsecond].
  intros Hn. Z.div_mod_to_equations. lia.
Qed.

Lemma of_us_valid (n : Z) :
  0 <= n < US_PER_DAY -> valid_time (of_us n).
Proof.
  unfold US_PER_DAY, valid_time, of_us; cbn [hour minute second microsecond].
  intros Hn. Z.div_mod_to_equations. lia.
Qed.

Lemma of_us_to_us (t : time) :
  valid_time t -> of_us (to_us t) = t.
Proof.
  destruct t as [h m s u]. unfold valid_time, to_us, of_us.
  cbn [hour minute second microsecond]. intros Hv.
  f_equal; Z.div_mod_to_equations; lia.
Qed.

Lemma time_eqb_eq (a b : time) : time_eqb a b = true <-> a = b.
Proof.
  destruct a, b. unfold time_eqb; cbn [hour minute second microsecond].
  rewrite !andb_true_iff, !Z.eqb_eq. split.
  - intros [[[-> ->] ->] ->]. reflexivity.
  - intros H; injection H; auto.
Qed.

Lemma time_eqb_refl (a : time) : time_eqb a a = true.
Proof. apply time_eqb_eq. reflexivity. Qed.

Lemma time_leb_le (a b : time) : time_leb a b = true <-> to_us a <= to_us b.
Proof. unfold time_leb. apply Z.leb_le. Qed.

(** Within the day of [d], the time of a datetime is its offset from
    midnight. *)
Lemma time_of_offset (d : date) (x : Z) :
  0 <= x < US_PER_DAY -> time_of (d * US_PER_DAY + x) = of_us x.
Proof.
  intros Hx. unfold time_of. f_equal.
  rewrite Z.add_comm, Z.mod_add by (unfold US_PER_DAY; lia).
  apply Z.mod_small. exact Hx.
Qed.

End TimeFacts.

(** ** The slot loop *)

Section SlotLoop.

Variables (end_ step : Z).
Hypothesis step_pos : 0 < step.

Lemma visited_S (current : Z) (n : nat) :
  visited step current (S n) = time_of current :: visited step (current + step) n.
Proof.
  unfold visited. cbn [seq map]. f_equal.
  - f_equal. lia.
  - rewrite <- seq_shift, map_map. apply map_ext. intros k. f_equal. lia.
Qed.

Lemma slots_loop_runs (n : nat) :
  forall fuel current slots,
    fits end_ step current n -> (n < fuel)%nat ->
    slots_loop fuel current end_ step slots = Some (slots ++ visited step current n).
Proof.
  induction n as [|n IH]; intros fuel current slots [Hlo Hhi] Hfuel.
  - destruct fuel as [|fuel]; [lia|]. cbn [slots_loop].
    replace (current + step <=? end_) with false
      by (symmetry; apply Z.leb_gt; lia).
    unfold visited; cbn. now rewrite app_nil_r.
  - destruct fuel as [|fuel]; [lia|]. cbn [slots_loop].
    assert (Hle : current + Z.of_nat (S n) * step <= end_)
      by (destruct Hlo as [Hz|Hle]; [discriminate|exact Hle]).
    replace (current + step <=? end_) with true
      by (symmetry; apply Z.leb_le; nia).
    rewrite IH.
    + rewrite visited_S, <- app_assoc. reflexivity.
    + split; [right|]; nia.
    + lia.
Qed.

(** More fuel does not change a result. *)
Lemma slots_loop_mono (fuel : nat) :
  forall fuel' current slots l,
    slots_loop fuel current end_ step slots = Some l ->
    (fuel <= fuel')%nat ->
    slots_loop fuel' current end_ step slots = Some l.
Proof.
  induction fuel as [|fuel IH]; intros fuel' current slots l Hrun Hle.
  - discriminate.
  - destruct fuel' as [|fuel']; [lia|]. cbn [slots_loop] in *.
    destruct (current + step <=? end_).
    + apply IH; [exact Hrun | lia].
    + exact Hrun.
Qed.

Lemma fits_quotient (current : Z) :
  fits end_ step current (Z.to_nat ((end_ - current) / step)).
Proof.
  unfold fits.
  pose proof (Z.div_mod (end_ - current) step ltac:(lia)) as Hdm.
  pose proof (Z.mod_pos_bound (end_ - current) step step_pos) as Hb.
  set (q := (end_ - current) / step) in *.
  set (r := (end_ - current) mod step) in *.
  destruct (Z_lt_le_dec q 0) as [Hneg|Hnn].
  - replace (Z.to_nat q) with 0%nat by lia.
    split; [now left|]. change (Z.of_nat 0) with 0.
    assert (step * q <= - step) by nia. lia.
  - rewrite Z2Nat.id by exact Hnn. split; [right|]; nia.
Qed.

End SlotLoop.

(** ** The slots of a schedule *)

Section AvailableSlots.

Variables (today : date) (s : Schedule).
Hypothesis start_valid : valid_time (start_time s).
Hypothesis end_valid : valid_time (end_time s).
Hypothesis duration_pos : 0 < appointment_duration s.

Let D := timedelta_minutes (appointment_duration s).
Let n := Z.to_nat (slot_count s).

Lemma step_positive : 0 < D.
Proof. unfold D, timedelta_minutes, US_PER_MINUTE. lia. Qed.

Lemma slot_count_spec (k : Z) :
  0 <= k ->
  (k < slot_count s <-> to_us (start_time s) + (k + 1) * D <= to_us (end_time s)).
Proof.
  intros Hk. pose proof step_positive as HD. unfold slot_count. fold D.
  pose proof (Z.div_mod (to_us (end_time s) - to_us (start_time s)) D ltac:(lia)) as Hdm.
  pose proof (Z.mod_pos_bound (to_us (end_time s) - to_us (start_time s)) D HD) as Hb.
  set (q := (to_us (end_time s) - to_us (start_time s)) / D) in *.
  split; intros H.
  - assert (D * (k + 1) <= D * q) by nia. lia.
  - assert (D * (k + 1) < D * (q + 1)) by lia. nia.
Qed.

Lemma slot_at_us (k : Z) :
  0 <= k < slot_count s -> to_us (slot_at s k) = to_us (start_time s) + k * D.
Proof.
  intros [Hk Hlt]. apply slot_count_spec in Hlt; [|exact Hk].
  pose proof step_positive as HD.
  pose proof (to_us_range _ start_valid). pose proof (to_us_range _ end_valid).
  unfold slot_at. fold D. apply to_us_of_us. nia.
Qed.

Lemma visited_slot_table :
  visited D (combine today (start_time s)) n = slot_table s n.
Proof.
  unfold visited, slot_table. apply map_ext_in. intros k Hin.
  apply in_seq in Hin. unfold combine, slot_at. fold D.
  rewrite <- Z.add_assoc. apply time_of_offset.
  assert (Hk : 0 <= Z.of_nat k < slot_count s) by (unfold n in Hin; lia).
  pose proof (slot_at_us _ Hk) as Hus. destruct Hk as [Hk Hlt].
  apply slot_count_spec in Hlt; [|exact Hk].
  pose proof step_positive.
  pose proof (to_us_range _ start_valid). pose proof (to_us_range _ end_valid).
  nia.
Qed.

(** With enough fuel the loop ends, and returns the table of slots. *)
Lemma available_slots_enough (fuel : nat) :
  (n < fuel)%nat -> available_slots fuel today s = Some (slot_table s n).
Proof.
  intros Hfuel. unfold available_slots. fold D.
  rewrite (slots_loop_runs _ _ step_positive n).
  - rewrite visited_slot_table. reflexivity.
  - replace n with
      (Z.to_nat ((combine today (end_time s) - combine today (start_time s)) / D)).
    + apply fits_quotient. exact step_positive.
    + unfold n, slot_count, combine. fold D. do 2 f_equal. lia.
  - exact Hfuel.
Qed.

(** Whatever the fuel, a returned list is that table. *)
Lemma available_slots_result (fuel : nat) (l : list time) :
  available_slots fuel today s = Some l -> l = slot_table s n.
Proof.
  intros Hrun.
  assert (Hbig : available_slots (fuel + S n) today s = Some l).
  { unfold available_slots in *.
    apply (slots_loop_mono _ _ fuel); [exact Hrun | lia]. }
  rewrite available_slots_enough in Hbig by lia. congruence.
Qed.

Lemma slot_table_length : length (slot_table s n) = n.
Proof. unfold slot_table. now rewrite length_map, length_seq. Qed.

Lemma slot_table_in (t : time) :
  In t (slot_table s n) ->
  exists k, 0 <= k < slot_count s /\ t = slot_at s k.
Proof.
  unfold slot_table. intros Hin. apply in_map_iff in Hin.
  destruct Hin as [k [Heq Hin]]. apply in_seq in Hin.
  exists (Z.of_nat k). split; [unfold n in Hin; lia | now symmetry].
Qed.

End AvailableSlots.

Lemma map_seq_sorted {A : Type} (R : A -> A -> Prop) (f : nat -> A) (len : nat) :
  forall a,
    (forall i j, (a <= i < j)%nat -> (j < a + len)%nat -> R (f i) (f j)) ->
    StronglySorted R (map f (seq a len)).
Proof.
  induction len as [|len IH]; intros a HR; cbn [seq map].
  - constructor.
  - constructor.
    + apply IH. intros i j Hij Hj. apply HR; lia.
    + apply Forall_forall. intros x Hx. apply in_map_iff in Hx.
      destruct Hx as [j [<- Hj]]. apply in_seq in Hj. apply HR; lia.
Qed.

(** ** Properties of the slot computation *)

(** C4: for a schedule with start < end and a positive duration, the slot
    computation terminates and returns exactly the times start + k * duration
    for k = 0, 1, ..., a k being included if and only if
    start + (k + 1) * duration <= end, in increasing order; for 09:00 to 12:00
    with 30 minutes it returns 09:00, 09:30, 10:00, 10:30, 11:00, 11:30. *)
Theorem C4_available_slots_sequence (today : date) (s : Schedule) :
  valid_time (start_time s) -> valid_time (end_time s) ->
  to_us (start_time s) < to_us (end_time s) ->
  0 < appointment_duration s ->
  let D := timedelta_minutes (appointment_duration s) in
  let n := Z.to_nat (slot_count s) in
  (forall fuel, (n < fuel)%nat ->
     available_slots fuel today s = Some (slot_table s n)) /\
  (forall fuel l, available_slots fuel today s = Some l -> l = slot_table s n) /\
  (forall k, 0 <= k ->
     (k < slot_count s <->
      to_us (start_time s) + (k + 1) * D <= to_us (end_time s))) /\
  (forall k, 0 <= k < slot_count s ->
     to_us (slot_at s k) = to_us (start_time s) + k * D) /\
  StronglySorted time_lt (slot_table s n) /\
  (forall doc dow working fuel, (6 < fuel)%nat ->
     available_slots fuel today (morning_schedule doc dow working)
     = Some [hm 9 0; hm 9 30; hm 10 0; hm 10 30; hm 11 0; hm 11 30]).
Proof.
  intros Hs He Hlt Hd D n. repeat split.
  - intros fuel. now apply available_slots_enough.
  - intros fuel l. now apply available_slots_result.
  - now apply slot_count_spec.
  - now apply slot_count_spec.
  - now apply slot_at_us.
  - unfold slot_table. apply map_seq_sorted. intros i j Hij Hj.
    unfold time_lt. fold n in Hj.
    rewrite !slot_at_us by (try assumption; lia).
    pose proof (step_positive s Hd). nia.
  - intros doc dow working fuel Hfuel.
    rewrite available_slots_enough.
    + reflexivity.
    + unfold valid_time; cbn; lia.
    + unfold valid_time; cbn; lia.
    + cbn; lia.
    + exact Hfuel.
Qed.

Lemma C4_available_slots_sequence_witness :
  available_slots 7 739000 (morning_schedule 1 0 true)
  = Some [hm 9 0; hm 9 30; hm 10 0; hm 10 30; hm 11 0; hm 11 30].
Proof.
  assert (Hv : forall h, 0 <= h < 24 -> valid_time (hm h 0))
    by (intros h Hh; unfold valid_time; cbn; lia).
  destruct (C4_available_slots_sequence 739000 (morning_schedule 1 0 true))
    as [Hrun _].
  - apply Hv; lia.
  - apply Hv; lia.
  - vm_compute; reflexivity.
  - vm_compute; reflexivity.
  - apply (Hrun 7%nat). vm_compute. lia.
Defined.

(** C5: for a schedule with start <= end and a positive duration that
    divides end - start exactly, the slot computation returns
    (end - start) / duration slots. *)
Theorem C5_slot_count_exact (today : date) (s : Schedule) :
  valid_time (start_time s) -> valid_time (end_time s) ->
  to_us (start_time s) <= to_us (end_time s) ->
  0 < appointment_duration s ->
  let D := timedelta_minutes (appointment_duration s) in
  (to_us (end_time s) - to_us (start_time s)) mod D = 0 ->
  (forall fuel, (Z.to_nat (slot_count s) < fuel)%nat ->
     exists l, available_slots fuel today s = Some l) /\
  (forall fuel l, available_slots fuel today s = Some l ->
     Z.of_nat (length l) = (to_us (end_time s) - to_us (start_time s)) / D /\
     Z.of_nat (length l) * D = to_us (end_time s) - to_us (start_time s)).
Proof.
  intros Hs He Hle Hd D Hmod. split.
  - intros fuel Hfuel. eexists. now apply available_slots_enough.
  - intros fuel l Hrun.
    apply available_slots_result in Hrun; try assumption. subst l.
    rewrite slot_table_length.
    pose proof (step_positive s Hd) as HD. fold D in HD.
    assert (Hq : 0 <= slot_count s)
      by (unfold slot_count; apply Z.div_pos; [lia | exact HD]).
    rewrite Z2Nat.id by exact Hq. unfold slot_count. fold D. split.
    + reflexivity.
    + pose proof (Z.div_mod (to_us (end_time s) - to_us (start_time s)) D
                    ltac:(lia)). lia.
Qed.

Lemma C5_slot_count_exact_witness :
  exists l, available_slots 7 739000 (morning_schedule 1 0 true) = Some l /\
            Z.of_nat (length l) = 6.
Proof.
  assert (Hv : forall h, 0 <= h < 24 -> valid_time (hm h 0))
    by (intros h Hh; unfold valid_time; cbn; lia).
  destruct (C5_slot_count_exact 739000 (morning_schedule 1 0 true))
    as [Hrun Hlen].
  - apply Hv; lia.
  - apply Hv; lia.
  - vm_compute; discriminate.
  - vm_compute; reflexivity.
  - vm_compute; reflexivity.
  - destruct (Hrun 7%nat) as [l Hl]; [vm_compute; lia|].
    exists l. split; [exact Hl|].
    destruct (Hlen _ _ Hl) as [Hq _]. rewrite Hq. vm_compute; reflexivity.
Defined.

(** C6: for a schedule with a positive duration the slot computation
    terminates, every slot it returns ends no later than the schedule's end
    (slot + duration <= end), and when end - start < duration it returns the
    empty sequence. *)
Theorem C6_slots_within_end (today : date) (s : Schedule) :
  valid_time (start_time s) -> valid_time (end_time s) ->
  0 < appointment_duration s ->
  let D := timedelta_minutes (appointment_duration s) in
  (forall fuel, (Z.to_nat (slot_count s) < fuel)%nat ->
     exists l, available_slots fuel today s = Some l) /\
  (forall fuel l, available_slots fuel today s = Some l ->
     forall t, In t l -> to_us t + D <= to_us (end_time s)) /\
  (to_us (end_time s) - to_us (start_time s) < D ->
   forall fuel, (0 < fuel)%nat -> available_slots fuel today s = Some []).
Proof.
  intros Hs He Hd D. pose proof (step_positive s Hd) as HD. fold D in HD.
  repeat split.
  - intros fuel Hfuel. eexists. now apply available_slots_enough.
  - intros fuel l Hrun t Hin.
    apply available_slots_result in Hrun; try assumption. subst l.
    apply slot_table_in in Hin. destruct Hin as [k [Hk ->]].
    rewrite slot_at_us by assumption.
    destruct Hk as [Hk Hlt]. apply slot_count_spec in Hlt; try assumption.
    fold D in Hlt. lia.
  - intros Hshort fuel Hfuel.
    assert (Hq : slot_count s <= 0).
    { unfold slot_count. fold D.
      assert ((to_us (end_time s) - to_us (start_time s)) / D < 1)
        by (apply Z.div_lt_upper_bound; lia). lia. }
    rewrite available_slots_enough by (try assumption; lia).
    replace (Z.to_nat (slot_count s)) with 0%nat by lia. reflexivity.
Qed.

Lemma C6_slots_within_end_witness :
  to_us (hm 11 30) + timedelta_minutes 30 <= to_us (hm 12 0) /\
  available_slots 1 739000 (mkSchedule 1 0 (hm 9 0) (hm 9 20) true 30) = Some [].
Proof.
  assert (Hv : forall h m, 0 <= h < 24 -> 0 <= m < 60 -> valid_time (hm h m))
    by (intros h m Hh Hm; unfold valid_time; cbn; lia).
  split.
  - destruct (C6_slots_within_end 739000 (morning_schedule 1 0 true))
      as [_ [Hin _]].
    + apply Hv; lia.
    + apply Hv; lia.
    + vm_compute; reflexivity.
    + apply (Hin 7%nat [hm 9 0; hm 9 30; hm 10 0; hm 10 30; hm 11 0; hm 11 30]).
      * vm_compute; reflexivity.
      * cbn; tauto.
  - destruct (C6_slots_within_end 739000 (mkSchedule 1 0 (hm 9 0) (hm 9 20) true 30))
      as [_ [_ Hshort]].
    + apply Hv; lia.
    + apply Hv; lia.
    + vm_compute; reflexivity.
    + apply Hshort; [vm_compute; reflexivity | lia].
Defined.

(** ** Facts about the queries *)

Section Queries.

Context {A : Type}.

Lemma exists_filter (f : A -> bool) (l : list A) :
  exists_ (filter f l) = true <-> exists x, In x l /\ f x = true.
Proof.
  split.
  - destruct (filter f l) as [|x q] eqn:Hq; [discriminate|]. intros _.
    exists x. apply filter_In. rewrite Hq. now left.
  - intros [x Hx]. apply filter_In in Hx.
    destruct (filter f l); [destruct Hx | reflexivity].
Qed.

Lemma first_filter_some (f : A -> bool) (l : list A) (x : A) :
  first (filter f l) = Some x -> In x l /\ f x = true.
Proof.
  destruct (filter f l) as [|y q] eqn:Hq; [discriminate|].
  intros [= ->]. apply filter_In. rewrite Hq. now left.
Qed.

Lemma first_filter_none (f : A -> bool) (l : list A) :
  first (filter f l) = None -> forall x, In x l -> f x = false.
Proof.
  destruct (filter f l) as [|y q] eqn:Hq; [|discriminate].
  intros _ x Hin. destruct (f x) eqn:Hfx; [|reflexivity].
  assert (Hx : In x (filter f l)) by (apply filter_In; now split).
  rewrite Hq in Hx. destruct Hx.
Qed.

Lemma filter_length_pos (f : A -> bool) (l : list A) (x : A) :
  In x l -> f x = true -> (1 <= length (filter f l))%nat.
Proof.
  intros Hin Hfx.
  assert (Hx : In x (filter f l)) by (apply filter_In; now split).
  destruct (filter f l); [destruct Hx | cbn; lia].
Qed.

End Queries.

Lemma is_active_iff (st : Status) :
  is_active st = true <-> st = pending \/ st = confirmed.
Proof.
  destruct st; cbn; split; intros H; auto; try discriminate;
    destruct H; discriminate.
Qed.

Lemma pk_eqb_eq (p q : option Z) : pk_eqb p q = true <-> p = q.
Proof.
  destruct p as [a|], q as [b|]; cbn; try (split; congruence).
  rewrite Z.eqb_eq. split; congruence.
Qed.

Lemma same_slot_iff (self a : Appointment) :
  same_slot self a = true <->
  doctor a = doctor self /\
  appointment_date a = appointment_date self /\
  appointment_time a = appointment_time self.
Proof.
  unfold same_slot. rewrite !andb_true_iff, !Z.eqb_eq, time_eqb_eq. tauto.
Qed.

Lemma same_slot_sym (a b : Appointment) : same_slot a b = same_slot b a.
Proof.
  apply eq_true_iff_eq. rewrite !same_slot_iff.
  split; intros [H1 [H2 H3]]; auto.
Qed.

Lemma not_excluded_iff (self b : Appointment) :
  not_excluded self b = true <-> (pk_truthy (pk self) = true -> pk b <> pk self).
Proof.
  unfold not_excluded. destruct (pk_truthy (pk self)).
  - rewrite negb_true_iff. split.
    + intros Hne _ Heq. apply pk_eqb_eq in Heq. congruence.
    + intros Hne. destruct (pk_eqb (pk b) (pk self)) eqn:E; [|reflexivity].
      apply pk_eqb_eq in E. now destruct Hne.
  - split; [discriminate | reflexivity].
Qed.

Lemma conflicting_exists (db : Database) (self : Appointment) :
  exists_ (conflicting_appointments db self) = true <->
  exists b, In b (appointments db) /\ counts_against self b.
Proof.
  unfold conflicting_appointments, counts_against. rewrite exists_filter.
  split; intros [b [Hin Hb]]; exists b; (split; [exact Hin|]).
  - rewrite !andb_true_iff, same_slot_iff, is_active_iff, not_excluded_iff in Hb.
    tauto.
  - rewrite !andb_true_iff, same_slot_iff, is_active_iff, not_excluded_iff.
    tauto.
Qed.

(** The first check of [clean] as one boolean. *)
Lemma conflict_reflect (db : Database) (self : Appointment) :
  is_active (status self) && exists_ (conflicting_appointments db self) = true
  <-> conflict db self.
Proof.
  unfold conflict. now rewrite andb_true_iff, is_active_iff, conflicting_exists.
Qed.

Lemma conflict_dec (db : Database) (self : Appointment) :
  conflict db self \/ ~ conflict db self.
Proof.
  rewrite <- conflict_reflect.
  destruct (is_active (status self) && exists_ (conflicting_appointments db self));
    [now left | right; discriminate].
Qed.

Lemma within_hours_reflect (sch : Schedule) (t : time) :
  time_leb (start_time sch) t && time_leb t (end_time sch) = true
  <-> within_hours sch t.
Proof.
  unfold within_hours. now rewrite andb_true_iff, !time_leb_le.
Qed.

Lemma schedule_of_working (db : Database) (self : Appointment) (sch : Schedule) :
  schedule_of db self = Some sch -> working_schedule_for db self sch.
Proof.
  unfold schedule_of, working_schedules, working_schedule_for. intros Hq.
  apply first_filter_some in Hq. destruct Hq as [Hin Hf].
  apply filter_In in Hin. destruct Hin as [Hin Hdoc].
  apply andb_true_iff in Hf. destruct Hf as [Hday Hw].
  apply Z.eqb_eq in Hdoc, Hday. auto.
Qed.

Lemma schedule_of_none (db : Database) (self : Appointment) :
  schedule_of db self = None <-> forall sch, ~ working_schedule_for db self sch.
Proof.
  split.
  - unfold schedule_of, working_schedules, working_schedule_for.
    intros Hq sch [Hin [Hdoc [Hday Hw]]].
    apply first_filter_none with (x := sch) in Hq.
    + rewrite Hw, Hday, Z.eqb_refl in Hq. discriminate.
    + apply filter_In. split; [exact Hin|]. now apply Z.eqb_eq.
  - intros Hnone. destruct (schedule_of db self) as [sch|] eqn:Hq; [|reflexivity].
    apply schedule_of_working in Hq. now destruct (Hnone sch).
Qed.

(** Under the constraint of [Schedule.Meta] the query has one candidate. *)
Lemma schedule_of_unique (db : Database) (self : Appointment) (sch : Schedule) :
  unique_schedule_per_day (schedules db) ->
  working_schedule_for db self sch -> schedule_of db self = Some sch.
Proof.
  intros Huniq Hsch. destruct (schedule_of db self) as [sch'|] eqn:Hq.
  - apply schedule_of_working in Hq.
    destruct Hsch as [Hin [Hdoc [Hday _]]], Hq as [Hin' [Hdoc' [Hday' _]]].
    f_equal. apply Huniq; congruence.
  - rewrite schedule_of_none in Hq. now destruct (Hq sch).
Qed.

(** ** Facts about the validation *)

(** Closes the four equivalences of an outcome table once the outcome and
    the truth of each condition are in the context. *)
Ltac outcomes :=
  split; [|split; [|split]]; (split; intros ?);
  first [discriminate | reflexivity | tauto | lia].

(** [clean] as the cascade of its three tests. *)
Lemma clean_cascade (today : date) (db : Database) (self : Appointment) :
  clean today db self =
  if is_active (status self) && exists_ (conflicting_appointments db self)
  then Raise SlotTaken
  else if appointment_date self <? today then Raise PastDate
  else match schedule_of db self with
       | Some sch =>
           if time_leb (start_time sch) (appointment_time self) &&
              time_leb (appointment_time self) (end_time sch)
           then Ok tt else Raise OutOfHours
       | None => Ok tt
       end.
Proof.
  unfold clean, schedule_of, raise_if, bind.
  destruct (is_active (status self));
    [destruct (exists_ (conflicting_appointments db self))|]; cbn [andb];
    try reflexivity;
    destruct (appointment_date self <? today); try reflexivity;
    destruct (first _) as [sch|]; try reflexivity;
    destruct (time_leb _ _ && time_leb _ _); reflexivity.
Qed.

(** Which outcome [clean] has, in terms of the three conditions. *)
Lemma clean_spec (today : date) (db : Database) (self : Appointment) :
  (clean today db self = Raise SlotTaken <-> conflict db self) /\
  (clean today db self = Raise PastDate <->
   ~ conflict db self /\ appointment_date self < today) /\
  (clean today db self = Raise OutOfHours <->
   ~ conflict db self /\ today <= appointment_date self /\ outside_hours db self) /\
  (clean today db self = Ok tt <->
   ~ conflict db self /\ today <= appointment_date self /\ ~ outside_hours db self).
Proof.
  rewrite clean_cascade.
  pose proof (conflict_reflect db self) as Hc.
  destruct (is_active (status self) && exists_ (conflicting_appointments db self)).
  { assert (conflict db self) by now apply Hc. outcomes. }
  assert (Hnc : ~ conflict db self) by (intros H; apply Hc in H; discriminate).
  clear Hc.
  destruct (appointment_date self <? today) eqn:Hd;
    [apply Z.ltb_lt in Hd | apply Z.ltb_ge in Hd].
  { outcomes. }
  assert (Hsome : forall sch, schedule_of db self = Some sch ->
            (outside_hours db self <-> ~ within_hours sch (appointment_time self))).
  { intros sch Hq. unfold outside_hours. rewrite Hq. split.
    - intros [sch' [[= <-] Hout]]. exact Hout.
    - intros Hout. now exists sch. }
  assert (Hnone : schedule_of db self = None -> ~ outside_hours db self).
  { intros Hq [sch' [Hq' _]]. congruence. }
  destruct (schedule_of db self) as [sch|].
  - specialize (Hsome sch eq_refl). clear Hnone.
    pose proof (within_hours_reflect sch (appointment_time self)) as Hw.
    destruct (time_leb (start_time sch) (appointment_time self) &&
              time_leb (appointment_time self) (end_time sch)).
    + assert (Hin : within_hours sch (appointment_time self)) by now apply Hw.
      outcomes.
    + assert (Hout : ~ within_hours sch (appointment_time self))
        by (intros H; apply Hw in H; discriminate).
      outcomes.
  - specialize (Hnone eq_refl). outcomes.
Qed.

Lemma clean_total (today : date) (db : Database) (self : Appointment) :
  clean today db self = Ok tt \/ exists e, clean today db self = Raise e.
Proof.
  destruct (clean today db self) as [[]|e]; [now left | right; now exists e].
Qed.

(** For a new appointment that is pending or confirmed the conflict
    condition is that the slot is taken. *)
Lemma conflict_new (db : Database) (self : Appointment) :
  pk self = None -> is_active (status self) = true ->
  (conflict db self <-> slot_taken db self).
Proof.
  intros Hpk Hact. apply is_active_iff in Hact.
  unfold conflict, slot_taken, counts_against. rewrite Hpk. cbn [pk_truthy].
  split.
  - intros [_ [b Hb]]. exists b. tauto.
  - intros [b Hb]. split; [exact Hact|]. exists b.
    repeat split; try tauto. discriminate.
Qed.

Lemma monday_clinic_unique : unique_schedule_per_day monday_clinic.
Proof.
  intros s1 s2 [<-|[]] [<-|[]] _ _. reflexivity.
Qed.

(** ** Properties of the validation *)

(** C1, as the code has it: when the doctor has no working schedule for the
    weekday of the date, the hours check is skipped; validation does not fail
    with OutOfHours, and it succeeds exactly when the slot is free and the
    date is not past. *)
Theorem C1_no_schedule_skips_hours (today : date) (db : Database) (self : Appointment) :
  (forall sch, ~ working_schedule_for db self sch) ->
  clean today db self <> Raise OutOfHours /\
  (clean today db self = Ok tt <->
   ~ conflict db self /\ today <= appointment_date self).
Proof.
  intros Hnone. apply schedule_of_none in Hnone.
  assert (Hno : ~ outside_hours db self)
    by (intros [sch [Hq _]]; congruence).
  destruct (clean_spec today db self) as [_ [_ [Hout Hok]]]. split.
  - intros H. apply Hout in H. tauto.
  - rewrite Hok. tauto.
Qed.

Lemma no_working_schedule_on_day_off (t : time) (sch : Schedule) :
  ~ working_schedule_for (mkDatabase [] monday_off) (request t) sch.
Proof.
  intros [[<-|[]] [_ [_ Hw]]]. discriminate.
Qed.

Lemma C1_no_schedule_skips_hours_witness :
  clean a_monday (mkDatabase [] monday_off) (request (hm 15 0)) = Ok tt.
Proof.
  destruct (C1_no_schedule_skips_hours a_monday (mkDatabase [] monday_off)
              (request (hm 15 0))) as [_ Hok].
  - apply no_working_schedule_on_day_off.
  - apply Hok. split.
    + intros [_ [b [[] _]]].
    + vm_compute; discriminate.
Defined.

(** C1 as stated fails: on a day off of the doctor a request for 15:00 is
    accepted. *)
Lemma C1_counterexample :
  (forall sch, ~ working_schedule_for (mkDatabase [] monday_off)
                                      (request (hm 15 0)) sch) /\
  clean a_monday (mkDatabase [] monday_off) (request (hm 15 0)) = Ok tt /\
  clean a_monday (mkDatabase [] monday_off) (request (hm 15 0)) <> Raise OutOfHours.
Proof.
  split; [apply no_working_schedule_on_day_off|].
  split; [reflexivity | discriminate].
Qed.

(** C2, as the code has it: the three checks run in the order SlotTaken,
    PastDate, OutOfHours, and the reason reported is that of the first one
    that fails: SlotTaken whenever the slot conflicts; PastDate when it does
    not and the date is past; OutOfHours when neither holds and the time is
    outside the hours of the working schedule; success otherwise. *)
Theorem C2_check_order (today : date) (db : Database) (self : Appointment) :
  (clean today db self = Raise SlotTaken <-> conflict db self) /\
  (clean today db self = Raise PastDate <->
   ~ conflict db self /\ appointment_date self < today) /\
  (clean today db self = Raise OutOfHours <->
   ~ conflict db self /\ today <= appointment_date self /\ outside_hours db self) /\
  (clean today db self = Ok tt <->
   ~ conflict db self /\ today <= appointment_date self /\ ~ outside_hours db self).
Proof.
  apply clean_spec.
Qed.

Lemma request_outside_hours (db : Database) :
  schedules db = monday_clinic -> outside_hours db (request (hm 15 0)).
Proof.
  intros Hs. exists (morning_schedule 1 0 true). split.
  - unfold schedule_of, working_schedules. rewrite Hs. reflexivity.
  - unfold within_hours. vm_compute. intros [_ H]. now apply H.
Qed.

(** C2 as stated fails: a request that is both past-dated and out of hours
    is rejected with PastDate. *)
Lemma C2_counterexample :
  appointment_date (request (hm 15 0)) < the_week_after /\
  outside_hours (mkDatabase [] monday_clinic) (request (hm 15 0)) /\
  clean the_week_after (mkDatabase [] monday_clinic) (request (hm 15 0))
  = Raise PastDate /\
  clean the_week_after (mkDatabase [] monday_clinic) (request (hm 15 0))
  <> Raise OutOfHours.
Proof.
  split; [vm_compute; reflexivity|].
  split; [now apply request_outside_hours|].
  split; [reflexivity | discriminate].
Qed.

(** C3, as the code has it: when the weekday has a working schedule,
    validation rejects every requested time outside the closed interval
    from the schedule's start to its end, with OutOfHours when the two
    earlier checks pass; a time inside the interval, slot start or not and
    the end itself included, is not rejected for its time. *)
Theorem C3_hours_are_an_interval
  (today : date) (db : Database) (self : Appointment) (sch : Schedule) :
  unique_schedule_per_day (schedules db) ->
  working_schedule_for db self sch ->
  (~ within_hours sch (appointment_time self) ->
   exists e, clean today db self = Raise e) /\
  (~ within_hours sch (appointment_time self) ->
   ~ conflict db self -> today <= appointment_date self ->
   clean today db self = Raise OutOfHours) /\
  (within_hours sch (appointment_time self) ->
   clean today db self <> Raise OutOfHours).
Proof.
  intros Huniq Hsch. pose proof (schedule_of_unique _ _ _ Huniq Hsch) as Hq.
  assert (Hout : outside_hours db self <-> ~ within_hours sch (appointment_time self)).
  { unfold outside_hours. rewrite Hq. split.
    - intros [sch' [[= <-] H]]. exact H.
    - intros H. now exists sch. }
  destruct (clean_spec today db self) as [_ [_ [Hhours Hok]]].
  split; [|split].
  - intros Hno. destruct (clean_total today db self) as [Hfine|Hbad].
    + apply Hok in Hfine. tauto.
    + exact Hbad.
  - intros Hno Hfree Hdate. apply Hhours. tauto.
  - intros Hin Hraise. apply Hhours in Hraise. tauto.
Qed.

Lemma monday_clinic_working (t : time) :
  working_schedule_for (mkDatabase [] monday_clinic) (request t)
                       (morning_schedule 1 0 true).
Proof.
  unfold working_schedule_for. cbn. repeat split. now left.
Qed.

Lemma C3_hours_are_an_interval_witness :
  exists e, clean a_monday (mkDatabase [] monday_clinic) (request (hm 15 0)) = Raise e.
Proof.
  destruct (C3_hours_are_an_interval a_monday (mkDatabase [] monday_clinic)
              (request (hm 15 0)) (morning_schedule 1 0 true))
    as [Hrej _].
  - exact monday_clinic_unique.
  - apply monday_clinic_working.
  - apply Hrej. unfold within_hours. vm_compute. intros [_ H]. now apply H.
Defined.

(** C3 as stated fails: 09:15 lies between two slot boundaries and 12:00 is
    the schedule's end; neither is a computed slot and both are accepted. *)
Lemma C3_counterexample :
  working_schedule_for (mkDatabase [] monday_clinic) (request (hm 9 15))
                       (morning_schedule 1 0 true) /\
  available_slots 7 a_monday (morning_schedule 1 0 true)
  = Some [hm 9 0; hm 9 30; hm 10 0; hm 10 30; hm 11 0; hm 11 30] /\
  ~ In (hm 9 15) [hm 9 0; hm 9 30; hm 10 0; hm 10 30; hm 11 0; hm 11 30] /\
  ~ In (hm 12 0) [hm 9 0; hm 9 30; hm 10 0; hm 10 30; hm 11 0; hm 11 30] /\
  clean a_monday (mkDatabase [] monday_clinic) (request (hm 9 15)) = Ok tt /\
  clean a_monday (mkDatabase [] monday_clinic) (request (hm 12 0)) = Ok tt.
Proof.
  split; [apply monday_clinic_working|].
  split; [vm_compute; reflexivity|].
  split; [cbn; intuition discriminate|].
  split; [cbn; intuition discriminate|].
  split; reflexivity.
Qed.

(** C7, as the code has it: every request dated strictly before today is
    rejected, with PastDate unless the conflict check, which runs first,
    has already rejected it with SlotTaken; PastDate is reported for no
    other request, so a request dated today is not rejected for its date. *)
Theorem C7_past_date (today : date) (db : Database) (self : Appointment) :
  (appointment_date self < today ->
   clean today db self = Raise SlotTaken \/ clean today db self = Raise PastDate) /\
  (appointment_date self < today -> ~ conflict db self ->
   clean today db self = Raise PastDate) /\
  (clean today db self = Raise PastDate -> appointment_date self < today) /\
  (appointment_date self = today -> clean today db self <> Raise PastDate).
Proof.
  destruct (clean_spec today db self) as [Htaken [Hpast _]].
  split; [|split; [|split]].
  - intros Hlt. destruct (conflict_dec db self) as [Hc|Hnc].
    + left. now apply Htaken.
    + right. apply Hpast. now split.
  - intros Hlt Hnc. apply Hpast. now split.
  - intros Hraise. apply Hpast in Hraise. tauto.
  - intros Heq Hraise. apply Hpast in Hraise. lia.
Qed.

Lemma C7_past_date_witness :
  clean the_week_after (mkDatabase [] monday_clinic) (request (hm 9 0))
  = Raise PastDate.
Proof.
  destruct (C7_past_date the_week_after (mkDatabase [] monday_clinic)
              (request (hm 9 0))) as [_ [Hpast _]].
  apply Hpast.
  - vm_compute; reflexivity.
  - intros [_ [b [[] _]]].
Defined.

(** C7 as stated fails: a past-dated request for a slot that a pending
    appointment holds is rejected with SlotTaken, not PastDate. *)
Lemma C7_counterexample :
  appointment_date (request (hm 9 0)) < the_week_after /\
  clean the_week_after nine_taken (request (hm 9 0)) = Raise SlotTaken /\
  clean the_week_after nine_taken (request (hm 9 0)) <> Raise PastDate.
Proof.
  split; [vm_compute; reflexivity|].
  split; [reflexivity | discriminate].
Qed.

(** ** Facts about saving *)

Lemma save_invalid (today : date) (db : Database) (self : Appointment)
      (e : ValidationError) :
  clean today db self = Raise e -> save today db self = Invalid e.
Proof. unfold save. now intros ->. Qed.

(** A successful save ran the validation and committed the written rows. *)
Lemma save_saved (today : date) (db db' : Database) (self : Appointment) (k : Z) :
  save today db self = Saved db' k ->
  clean today db self = Ok tt /\
  db' = mkDatabase (fst (write_row (appointments db) self)) (schedules db) /\
  k = snd (write_row (appointments db) self) /\
  unique_appointment_time (appointments db') = true.
Proof.
  unfold save. destruct (clean today db self) as [[]|e]; [|discriminate].
  destruct (write_row (appointments db) self) as [rows' k'].
  destruct (unique_appointment_time rows') eqn:Hu; [|discriminate].
  intros [= <- <-]. cbn. auto.
Qed.

Lemma write_row_new (rows : list Appointment) (self : Appointment) :
  pk self = None ->
  write_row rows self = (rows ++ [set_pk self (next_pk rows)], next_pk rows).
Proof. unfold write_row. now intros ->. Qed.

(** ** Double booking *)

(** C8: for a proposed appointment (not yet stored, pending or confirmed),
    validation fails with SlotTaken if and only if some stored appointment
    with the same doctor, date and time is pending or confirmed; once such
    a proposal has been saved, the next booking for the same doctor, date and
    time is rejected with SlotTaken; and when every stored appointment at the
    slot is cancelled the proposal is not rejected with SlotTaken. *)
Theorem C8_slot_taken (today : date) (db : Database) (self : Appointment) :
  pk self = None -> is_active (status self) = true ->
  (clean today db self = Raise SlotTaken <-> slot_taken db self) /\
  (forall db' k, save today db self = Saved db' k ->
     forall today' pat,
       create today' db' pat (doctor self) (appointment_date self)
              (appointment_time self) = Invalid SlotTaken) /\
  ((forall b, In b (appointments db) ->
      doctor b = doctor self ->
      appointment_date b = appointment_date self ->
      appointment_time b = appointment_time self ->
      status b = cancelled) ->
   clean today db self <> Raise SlotTaken).
Proof.
  intros Hpk Hact.
  assert (Hiff : forall day d a, pk a = None -> is_active (status a) = true ->
            (clean day d a = Raise SlotTaken <-> slot_taken d a)).
  { intros day d a Hk Ha. destruct (clean_spec day d a) as [Htaken _].
    rewrite Htaken. now apply conflict_new. }
  split; [|split].
  - now apply Hiff.
  - intros db' k Hsaved today' pat. unfold create. apply save_invalid.
    apply Hiff; [reflexivity | reflexivity |].
    apply save_saved in Hsaved. destruct Hsaved as [_ [-> _]].
    rewrite write_row_new by exact Hpk.
    exists (set_pk self (next_pk (appointments db))). cbn.
    split; [apply in_or_app; right; now left|].
    repeat split. now apply is_active_iff.
  - intros Hcancelled Hraise. apply Hiff in Hraise; [|exact Hpk|exact Hact].
    destruct Hraise as [b [Hin [Hd [Hdt [Ht Hst]]]]].
    pose proof (Hcancelled b Hin Hd Hdt Ht) as Hc.
    destruct Hst as [Hst|Hst]; congruence.
Qed.

Lemma C8_slot_taken_witness :
  clean a_monday nine_taken (request (hm 9 0)) = Raise SlotTaken.
Proof.
  destruct (C8_slot_taken a_monday nine_taken (request (hm 9 0)))
    as [Hiff _].
  - reflexivity.
  - reflexivity.
  - apply Hiff. exists (booked 1 a_monday (hm 9 0) pending).
    split; [now left|]. repeat split. now left.
Defined.

(** ** The uniqueness constraint *)

Lemma active_at_iff (doc : Z) (d : date) (t : time) (a : Appointment) :
  active_at doc d t a = true <->
  is_active (status a) = true /\ doctor a = doc /\
  appointment_date a = d /\ appointment_time a = t.
Proof.
  unfold active_at. rewrite !andb_true_iff, !Z.eqb_eq, time_eqb_eq. tauto.
Qed.

(** Rows that satisfy the constraint hold at most one pending or confirmed
    appointment per doctor, date and time. *)
Lemma unique_count (rows : list Appointment) :
  unique_appointment_time rows = true ->
  forall doc d t, (length (filter (active_at doc d t) rows) <= 1)%nat.
Proof.
  induction rows as [|a rest IH]; intros Hu doc d t; cbn [filter length].
  - lia.
  - cbn [unique_appointment_time] in Hu. apply andb_true_iff in Hu.
    destruct Hu as [Ha Hrest]. specialize (IH Hrest doc d t).
    destruct (active_at doc d t a) eqn:Haa; [|exact IH].
    cbn [length]. destruct (filter (active_at doc d t) rest) as [|b q] eqn:Hq.
    + cbn. lia.
    + exfalso.
      assert (Hb : In b (filter (active_at doc d t) rest))
        by (rewrite Hq; now left).
      apply filter_In in Hb. destruct Hb as [Hin Hab].
      apply active_at_iff in Haa, Hab.
      destruct Haa as [Hact [Hd1 [Hd2 Hd3]]], Hab as [Hact' [He1 [He2 He3]]].
      rewrite Hact in Ha. cbn [andb] in Ha. apply negb_true_iff in Ha.
      assert (Hex : existsb (fun b => is_active (status b) && same_slot a b) rest
                    = true).
      { apply existsb_exists. exists b. split; [exact Hin|].
        rewrite Hact'. cbn [andb]. apply same_slot_iff. repeat split; congruence. }
      congruence.
Qed.

(** A row that shares no slot with a pending or confirmed one can be
    appended. *)
Lemma unique_append (rows : list Appointment) (a : Appointment) :
  unique_appointment_time rows = true ->
  (is_active (status a) = true ->
   forall b, In b rows -> is_active (status b) = true -> same_slot b a = false) ->
  unique_appointment_time (rows ++ [a]) = true.
Proof.
  induction rows as [|x rest IH]; intros Hu Hfree.
  - cbn. now rewrite andb_false_r.
  - cbn [app unique_appointment_time] in *. apply andb_true_iff in Hu.
    destruct Hu as [Hx Hrest]. apply andb_true_iff. split.
    + rewrite existsb_app. cbn [existsb]. rewrite orb_false_r.
      destruct (is_active (status x)) eqn:Hax; [|reflexivity].
      cbn [andb] in *. apply negb_true_iff in Hx. rewrite Hx. cbn [orb].
      destruct (is_active (status a)) eqn:Haa; [|reflexivity].
      cbn [andb]. rewrite (Hfree eq_refl x); [reflexivity | now left | exact Hax].
    + apply IH; [exact Hrest|]. intros Haa b Hin. apply Hfree; [exact Haa|now right].
Qed.

Lemma step_keeps_constraint (db db' : Database) :
  step db db' -> unique_appointment_time (appointments db') = true.
Proof.
  intros Hstep. destruct Hstep as [today db pat doc d t db' k Hs
                                  |today db self db' k Hs
                                  |db sel db' Hs
                                  |db sel db' Hs].
  - unfold create in Hs. now apply save_saved in Hs.
  - now apply save_saved in Hs.
  - unfold confirm_appointments, update_status in Hs.
    destruct (unique_appointment_time _) eqn:Hu; [|discriminate].
    injection Hs as <-. exact Hu.
  - unfold cancel_appointments, update_status in Hs.
    destruct (unique_appointment_time _) eqn:Hu; [|discriminate].
    injection Hs as <-. exact Hu.
Qed.

Lemma reachable_constraint (db : Database) :
  reachable db -> unique_appointment_time (appointments db) = true.
Proof.
  intros Hr. destruct Hr as [scheds|db db' _ Hstep].
  - reflexivity.
  - now apply step_keeps_constraint in Hstep.
Qed.

(** The validation of a new pending appointment implies the constraint: a
    create is never stopped by the backend. *)
Lemma create_passes_constraint
      (today : date) (db : Database) (pat doc : Z) (d : date) (t : time) :
  unique_appointment_time (appointments db) = true ->
  create today db pat doc d t <> IntegrityError.
Proof.
  intros Hu. unfold create, save.
  destruct (clean_spec today db (new_appointment pat doc d t)) as [_ [_ [_ Hok]]].
  destruct (clean today db (new_appointment pat doc d t)) as [[]|e]; [|discriminate].
  destruct Hok as [Hok _]. destruct (Hok eq_refl) as [Hfree _].
  rewrite write_row_new by reflexivity.
  rewrite unique_append; [discriminate | exact Hu |].
  intros _ b Hin Hact.
  destruct (same_slot b (set_pk (new_appointment pat doc d t)
                                (next_pk (appointments db)))) eqn:Hs;
    [|reflexivity].
  exfalso. apply Hfree. split; [now left|]. exists b. split; [exact Hin|].
  apply same_slot_iff in Hs. cbn in Hs. apply is_active_iff in Hact.
  unfold counts_against. cbn. repeat split; try tauto; try easy.
  all: destruct Hs as [H1 [H2 H3]]; congruence.
Qed.

(** C9: in every state the appointment operations (create and save,
    confirm, cancel) produce from a database without appointments, each
    doctor, date and time has at most one pending or confirmed appointment;
    a create for a slot that a pending or confirmed appointment holds is
    refused by the validation, and a create is never left to the backend's
    constraint to refuse. *)
Theorem C9_one_active_per_slot (db : Database) :
  reachable db ->
  (forall doc d t,
     (length (filter (active_at doc d t) (appointments db)) <= 1)%nat) /\
  (forall today pat doc d t,
     (exists b, In b (appointments db) /\ active_at doc d t b = true) ->
     create today db pat doc d t = Invalid SlotTaken) /\
  (forall today pat doc d t, create today db pat doc d t <> IntegrityError).
Proof.
  intros Hr. apply reachable_constraint in Hr. split; [|split].
  - now apply unique_count.
  - intros today pat doc d t [b [Hin Hb]]. unfold create. apply save_invalid.
    apply (clean_spec today db (new_appointment pat doc d t)).
    split; [now left|]. exists b. split; [exact Hin|].
    apply active_at_iff in Hb. destruct Hb as [Hact [Hd [Hdt Ht]]].
    apply is_active_iff in Hact. unfold counts_against. cbn.
    repeat split; try assumption. discriminate.
  - intros today pat doc d t. now apply create_passes_constraint.
Qed.

Lemma C9_one_active_per_slot_witness :
  (length (filter (active_at 1 a_monday (hm 9 0)) (appointments nine_taken)) <= 1)%nat
  /\ create a_monday nine_taken 6 1 a_monday (hm 9 0) = Invalid SlotTaken.
Proof.
  assert (Hr : reachable nine_taken).
  { apply (reachable_step (mkDatabase [] monday_clinic)).
    - constructor.
    - apply (step_create a_monday _ 5 1 a_monday (hm 9 0) _ 1). reflexivity. }
  destruct (C9_one_active_per_slot nine_taken Hr) as [Hone [Hrefused _]].
  split; [apply Hone|]. apply Hrefused.
  exists (booked 1 a_monday (hm 9 0) pending). split; [now left | reflexivity].
Defined.

(** The state in which a cancelled appointment shares its slot with a later
    booking is produced by a create, a cancel and a second create. *)
Lemma rebooked_reachable : reachable rebooked.
Proof.
  apply (reachable_step
           (mkDatabase [booked 1 a_monday (hm 9 0) cancelled] monday_clinic)).
  - apply (reachable_step nine_taken).
    + apply (reachable_step (mkDatabase [] monday_clinic)).
      * constructor.
      * apply (step_create a_monday _ 5 1 a_monday (hm 9 0) _ 1). reflexivity.
    + apply (step_cancel _ [1]). reflexivity.
  - apply (step_create a_monday _ 6 1 a_monday (hm 9 0) _ 2). reflexivity.
Qed.

(** Confirming a cancelled appointment whose slot has been taken since is
    stopped by the constraint: the update bypasses the validation. *)
Lemma confirm_stopped_by_constraint :
  confirm_appointments rebooked [1] = None.
Proof. reflexivity. Qed.

(** ** Saved appointments *)

(** C10, as the code has it: [save] runs the validation before it writes,
    so for every appointment saved successfully, at save time its date was
    not before today, its time lay within the hours of the working schedule
    of its weekday when there was one, and, when the appointment itself is
    pending or confirmed, no other pending or confirmed appointment shared
    its doctor, date and time. *)
Theorem C10_saved_is_validated
  (today : date) (db db' : Database) (self : Appointment) (k : Z) :
  unique_schedule_per_day (schedules db) ->
  save today db self = Saved db' k ->
  clean today db self = Ok tt /\
  today <= appointment_date self /\
  (is_active (status self) = true ->
   forall b, In b (appointments db) -> pk b <> pk self ->
     is_active (status b) = true ->
     ~ (doctor b = doctor self /\
        appointment_date b = appointment_date self /\
        appointment_time b = appointment_time self)) /\
  (forall sch, working_schedule_for db self sch ->
     within_hours sch (appointment_time self)).
Proof.
  intros Huniq Hsaved. apply save_saved in Hsaved. destruct Hsaved as [Hclean _].
  destruct (clean_spec today db self) as [_ [_ [_ Hok]]].
  destruct Hok as [Hok _]. destruct (Hok Hclean) as [Hfree [Hdate Hhours]].
  split; [exact Hclean|]. split; [exact Hdate|]. split.
  - intros Hact b Hin Hother Hb [Hd [Hdt Ht]]. apply Hfree.
    split; [now apply is_active_iff|]. exists b. split; [exact Hin|].
    unfold counts_against.
    split; [exact Hd|]. split; [exact Hdt|]. split; [exact Ht|].
    split; [now apply is_active_iff | intros _; exact Hother].
  - intros sch Hsch. pose proof (schedule_of_unique _ _ _ Huniq Hsch) as Hq.
    pose proof (within_hours_reflect sch (appointment_time self)) as Hw.
    destruct (time_leb (start_time sch) (appointment_time self) &&
              time_leb (appointment_time self) (end_time sch)).
    + now apply Hw.
    + exfalso. apply Hhours. exists sch. split; [exact Hq|].
      intros Hin. apply Hw in Hin. discriminate.
Qed.

Lemma C10_saved_is_validated_witness :
  a_monday <= appointment_date (request (hm 9 30)) /\
  within_hours (morning_schedule 1 0 true) (appointment_time (request (hm 9 30))).
Proof.
  destruct (C10_saved_is_validated a_monday nine_taken
              (mkDatabase (appointments nine_taken ++ [set_pk (request (hm 9 30)) 2])
                          monday_clinic)
              (request (hm 9 30)) 2)
    as [_ [Hdate [_ Hhours]]].
  - exact monday_clinic_unique.
  - reflexivity.
  - split; [exact Hdate|]. apply Hhours.
    unfold working_schedule_for. cbn. repeat split. now left.
Defined.

(** C10 as stated fails: the cancelled appointment 1 is saved again while
    the pending appointment 2 holds its doctor, date and time. *)
Lemma C10_counterexample :
  save a_monday rebooked (booked 1 a_monday (hm 9 0) cancelled)
  = Saved rebooked 1 /\
  exists b, In b (appointments rebooked) /\
            pk b <> pk (booked 1 a_monday (hm 9 0) cancelled) /\
            is_active (status b) = true /\
            doctor b = doctor (booked 1 a_monday (hm 9 0) cancelled) /\
            appointment_date b = appointment_date (booked 1 a_monday (hm 9 0) cancelled) /\
            appointment_time b = appointment_time (booked 1 a_monday (hm 9 0) cancelled).
Proof.
  split; [reflexivity|].
  exists (mkAppointment (Some 2) 6 1 a_monday (hm 9 0) pending).
  split; [right; now left|]. cbn. repeat split. discriminate.
Qed.

(** ** More on the slot computation *)

Lemma total_slots_loop_counts (end_ step : Z) (fuel : nat) :
  forall current slots,
    ScheduleAdmin.total_slots_loop fuel current end_ step (Z.of_nat (length slots))
    = option_map (fun l => Z.of_nat (length l))
                 (slots_loop fuel current end_ step slots).
Proof.
  induction fuel as [|fuel IH]; intros current slots; cbn; [reflexivity|].
  destruct (current + step <=? end_); [|reflexivity].
  rewrite <- IH. f_equal. rewrite length_app. cbn. lia.
Qed.

(** X1: the admin's [total_slots] is the number of times the model's
    [available_slots] returns: with the same fuel both loops end together,
    and the count is the length of the list. *)
Theorem X1_total_slots_is_length (fuel : nat) (today : date) (s : Schedule) :
  ScheduleAdmin.total_slots fuel today s
  = option_map (fun l => Z.of_nat (length l)) (available_slots fuel today s).
Proof.
  unfold ScheduleAdmin.total_slots, available_slots.
  apply (total_slots_loop_counts _ _ fuel _ []).
Qed.




Lemma slots_loop_shift (end_ step k : Z) (fuel : nat) :
  forall current slots,
    slots_loop fuel (current + k * US_PER_DAY) (end_ + k * US_PER_DAY) step slots
    = slots_loop fuel current end_ step slots.
Proof.
  induction fuel as [|fuel IH]; intros current slots; cbn; [reflexivity|].
  replace (current + k * US_PER_DAY + step <=? end_ + k * US_PER_DAY)
    with (current + step <=? end_)
    by (apply eq_true_iff_eq; rewrite !Z.leb_le; lia).
  destruct (current + step <=? end_); [|reflexivity].
  replace (current + k * US_PER_DAY + step) with (current + step + k * US_PER_DAY)
    by lia.
  rewrite IH. do 2 f_equal. unfold time_of. f_equal. f_equal.
  apply Z.mod_add. unfold US_PER_DAY. lia.
Qed.

(** X3: the list [available_slots] returns does not depend on the day on
    which it is computed. *)
Theorem X3_available_slots_any_day (fuel : nat) (day day' : date) (s : Schedule) :
  available_slots fuel day s = available_slots fuel day' s.
Proof.
  unfold available_slots, combine.
  rewrite <- (slots_loop_shift _ _ (day - day') fuel
                (day' * US_PER_DAY + to_us (start_time s))).
  f_equal; lia.
Qed.

Lemma slot_within_hours (day : date) (fuel : nat) (s : Schedule) (l : list time)
      (t : time) :
  valid_time (start_time s) -> valid_time (end_time s) ->
  0 < appointment_duration s ->
  available_slots fuel day s = Some l -> In t l ->
  to_us (start_time s) <= to_us t /\
  to_us t + timedelta_minutes (appointment_duration s) <= to_us (end_time s).
Proof.
  intros Hs He Hd Hrun Hin.
  apply available_slots_result in Hrun; try assumption. subst l.
  apply slot_table_in in Hin. destruct Hin as [k [Hk ->]].
  rewrite slot_at_us by assumption.
  pose proof (step_positive s Hd) as HD.
  destruct Hk as [Hk Hlt]. apply slot_count_spec in Hlt; try assumption.
  nia.
Qed.

(** X4: every time [available_slots] returns for the working schedule of
    the doctor on the weekday of the date can be booked: a request for it
    whose date is not past and whose slot is free passes [clean]. *)
Theorem X4_slots_are_bookable
  (fuel : nat) (day today : date) (db : Database) (self : Appointment)
  (sch : Schedule) (l : list time) :
  unique_schedule_per_day (schedules db) ->
  working_schedule_for db self sch ->
  valid_time (start_time sch) -> valid_time (end_time sch) ->
  0 < appointment_duration sch ->
  available_slots fuel day sch = Some l ->
  In (appointment_time self) l ->
  today <= appointment_date self ->
  ~ conflict db self ->
  clean today db self = Ok tt.
Proof.
  intros Huniq Hsch Hs He Hd Hrun Hin Hdate Hfree.
  destruct (slot_within_hours _ _ _ _ _ Hs He Hd Hrun Hin) as [Hlo Hhi].
  pose proof (step_positive sch Hd) as HD.
  apply (clean_spec today db self). split; [exact Hfree|]. split; [exact Hdate|].
  intros [sch' [Hq Hout]].
  rewrite (schedule_of_unique _ _ _ Huniq Hsch) in Hq. injection Hq as <-.
  apply Hout. unfold within_hours. lia.
Qed.

Lemma X4_slots_are_bookable_witness :
  clean a_monday (mkDatabase [] monday_clinic) (request (hm 11 30)) = Ok tt.
Proof.
  apply (X4_slots_are_bookable 7 a_monday a_monday (mkDatabase [] monday_clinic)
           (request (hm 11 30)) (morning_schedule 1 0 true)
           [hm 9 0; hm 9 30; hm 10 0; hm 10 30; hm 11 0; hm 11 30]).
  - intros s1 s2 [<-|[]] [<-|[]] _ _. reflexivity.
  - unfold working_schedule_for. cbn. repeat split. now left.
  - unfold valid_time; cbn; lia.
  - unfold valid_time; cbn; lia.
  - vm_compute; reflexivity.
  - vm_compute; reflexivity.
  - cbn; tauto.
  - vm_compute; discriminate.
  - intros [_ [b [[] _]]].
Defined.

Lemma strongly_sorted_nodup (l : list time) :
  StronglySorted time_lt l -> NoDup l.
Proof.
  induction 1 as [|t l Hsorted IH Hall]; constructor.
  - intros Hin. rewrite Forall_forall in Hall. specialize (Hall t Hin).
    unfold time_lt in Hall. lia.
  - exact IH.
Qed.

(** X5: for a schedule with valid times and a positive duration, the times
    [available_slots] returns are valid times of day, strictly increasing
    and hence pairwise distinct. *)
Theorem X5_slots_distinct_valid
  (fuel : nat) (day : date) (s : Schedule) (l : list time) :
  valid_time (start_time s) -> valid_time (end_time s) ->
  0 < appointment_duration s ->
  available_slots fuel day s = Some l ->
  NoDup l /\ StronglySorted time_lt l /\ Forall valid_time l.
Proof.
  intros Hs He Hd Hrun. pose proof (step_positive s Hd) as HD.
  assert (Hsorted : StronglySorted time_lt l).
  { pose proof Hrun as Hl. apply available_slots_result in Hl; try assumption.
    subst l. unfold slot_table. apply map_seq_sorted. intros i j Hij Hj.
    unfold time_lt. rewrite !slot_at_us by (try assumption; lia). nia. }
  split; [now apply strongly_sorted_nodup|]. split; [exact Hsorted|].
  apply Forall_forall. intros t Hin.
  destruct (slot_within_hours _ _ _ _ _ Hs He Hd Hrun Hin) as [Hlo Hhi].
  pose proof (to_us_range _ Hs). pose proof (to_us_range _ He).
  pose proof Hrun as Hl. apply available_slots_result in Hl; try assumption.
  subst l. apply slot_table_in in Hin. destruct Hin as [k [Hk ->]].
  rewrite slot_at_us in Hlo, Hhi by assumption.
  unfold slot_at. apply of_us_valid. lia.
Qed.

Lemma X5_slots_distinct_valid_witness :
  NoDup [hm 9 0; hm 9 30; hm 10 0; hm 10 30; hm 11 0; hm 11 30].
Proof.
  destruct (X5_slots_distinct_valid 7 a_monday (morning_schedule 1 0 true)
              [hm 9 0; hm 9 30; hm 10 0; hm 10 30; hm 11 0; hm 11 30])
    as [Hnodup _].
  - unfold valid_time; cbn; lia.
  - unfold valid_time; cbn; lia.
  - vm_compute; reflexivity.
  - vm_compute; reflexivity.
  - exact Hnodup.
Defined.

(** X6: a schedule that [Schedule.clean] rejects (start >= end) offers no
    slot, and one it accepts, with room for one appointment
    (duration <= end - start), offers its start time as the first slot. *)
Theorem X6_schedule_clean_and_slots (day : date) (s : Schedule) :
  valid_time (start_time s) -> valid_time (end_time s) ->
  0 < appointment_duration s ->
  (Schedule_clean_raises s = true ->
   forall fuel, (0 < fuel)%nat -> available_slots fuel day s = Some []) /\
  (Schedule_clean_raises s = false ->
   timedelta_minutes (appointment_duration s)
     <= to_us (end_time s) - to_us (start_time s) ->
   forall fuel, (Z.to_nat (slot_count s) < fuel)%nat ->
     exists rest, available_slots fuel day s = Some (start_time s :: rest)).
Proof.
  intros Hs He Hd. pose proof (step_positive s Hd) as HD. split.
  - intros Hraise fuel Hfuel. apply time_leb_le in Hraise.
    assert (Hq : slot_count s <= 0).
    { unfold slot_count.
      assert ((to_us (end_time s) - to_us (start_time s))
                / timedelta_minutes (appointment_duration s) < 1)
        by (apply Z.div_lt_upper_bound; lia). lia. }
    rewrite available_slots_enough by (try assumption; lia).
    replace (Z.to_nat (slot_count s)) with 0%nat by lia. reflexivity.
  - intros _ Hroom fuel Hfuel.
    rewrite available_slots_enough by assumption.
    assert (Hq : 0 < slot_count s).
    { apply slot_count_spec; try assumption; lia. }
    destruct (Z.to_nat (slot_count s)) as [|m] eqn:Hm; [lia|].
    unfold slot_table. cbn [seq map]. eexists. f_equal.
    unfold slot_at. cbn [Z.of_nat]. rewrite Z.mul_0_l, Z.add_0_r.
    rewrite of_us_to_us by assumption. reflexivity.
Qed.

Lemma X6_schedule_clean_and_slots_witness :
  available_slots 1 a_monday (mkSchedule 1 0 (hm 12 0) (hm 9 0) true 30) = Some [].
Proof.
  destruct (X6_schedule_clean_and_slots a_monday
              (mkSchedule 1 0 (hm 12 0) (hm 9 0) true 30)) as [Hnone _].
  - unfold valid_time; cbn; lia.
  - unfold valid_time; cbn; lia.
  - vm_compute; reflexivity.
  - apply Hnone; [vm_compute; reflexivity | lia].
Defined.

(** ** The admin's count of available slots *)

Lemma total_slots_nonneg (fuel : nat) (today : date) (obj : Schedule) (total : Z) :
  ScheduleAdmin.total_slots fuel today obj = Some total -> 0 <= total.
Proof.
  unfold ScheduleAdmin.total_slots, available_slots.
  rewrite (total_slots_loop_counts _ _ fuel _ []).
  destruct (slots_loop _ _ _ _ _) as [l|]; cbn; [|discriminate].
  intros [= <-]. lia.
Qed.

(** X7: the admin's count of available slots is never negative and never
    more than [total_slots]; it is [total_slots] minus the doctor's pending
    and confirmed appointments of today when that difference is not
    negative, and 0 otherwise. *)
Theorem X7_admin_available_bounds
  (fuel : nat) (today now : date) (db : Database) (obj : Schedule) (v : Z) :
  ScheduleAdmin.available_slots fuel today now db obj = Some v ->
  exists total,
    ScheduleAdmin.total_slots fuel today obj = Some total /\
    0 <= v <= total /\
    (ScheduleAdmin.booked now db obj <= total ->
     v = total - ScheduleAdmin.booked now db obj) /\
    (total <= ScheduleAdmin.booked now db obj -> v = 0).
Proof.
  unfold ScheduleAdmin.available_slots.
  destruct (ScheduleAdmin.total_slots fuel today obj) as [total|] eqn:Ht;
    [|discriminate].
  intros [= <-]. exists total. apply total_slots_nonneg in Ht.
  assert (0 <= ScheduleAdmin.booked now db obj)
    by (unfold ScheduleAdmin.booked; lia).
  repeat split; lia.
Qed.

Lemma X7_admin_available_bounds_witness :
  exists total,
    ScheduleAdmin.total_slots 7 a_monday (morning_schedule 1 0 true) = Some total /\
    0 <= 5 <= total.
Proof.
  destruct (X7_admin_available_bounds 7 a_monday a_monday nine_taken
              (morning_schedule 1 0 true) 5) as [total [Ht [Hb _]]].
  - vm_compute; reflexivity.
  - exists total. split; [exact Ht | exact Hb].
Defined.

Lemma filter_map_length_le {A : Type} (p : A -> bool) (g : A -> A) (l : list A) :
  (forall a, p (g a) = true -> p a = true) ->
  (length (filter p (map g l)) <= length (filter p l))%nat.
Proof.
  intros Hpg. induction l as [|a l IH]; cbn; [lia|].
  destruct (p (g a)) eqn:Hga.
  - rewrite (Hpg a Hga). cbn. lia.
  - destruct (p a); cbn; lia.
Qed.

(** X8: cancelling appointments never lowers the admin's count of
    available slots. *)
Theorem X8_cancel_frees_slots
  (fuel : nat) (today now : date) (db db' : Database) (sel : list Z)
  (obj : Schedule) (v : Z) :
  cancel_appointments db sel = Some db' ->
  ScheduleAdmin.available_slots fuel today now db obj = Some v ->
  exists v', ScheduleAdmin.available_slots fuel today now db' obj = Some v' /\
             v <= v'.
Proof.
  unfold cancel_appointments, update_status. intros Hcancel.
  destruct (unique_appointment_time _); [|discriminate].
  injection Hcancel as <-. unfold ScheduleAdmin.available_slots.
  destruct (ScheduleAdmin.total_slots fuel today obj) as [total|]; [|discriminate].
  intros [= <-]. eexists. split; [reflexivity|].
  assert (ScheduleAdmin.booked now
            (mkDatabase
               (map (fun a => if selected sel a then set_status a cancelled else a)
                    (appointments db)) (schedules db)) obj
          <= ScheduleAdmin.booked now db obj).
  { unfold ScheduleAdmin.booked. cbn [appointments]. apply inj_le.
    apply filter_map_length_le. intros a.
    destruct (selected sel a); [|auto]. cbn. now rewrite andb_false_r. }
  lia.
Qed.

Lemma X8_cancel_frees_slots_witness :
  exists v', ScheduleAdmin.available_slots 7 a_monday a_monday
               (mkDatabase [booked 1 a_monday (hm 9 0) cancelled] monday_clinic)
               (morning_schedule 1 0 true) = Some v' /\
             5 <= v'.
Proof.
  apply (X8_cancel_frees_slots 7 a_monday a_monday nine_taken _ [1]
           (morning_schedule 1 0 true) 5).
  - reflexivity.
  - vm_compute; reflexivity.
Defined.



(** ** Cancelling and confirming *)

(** An update that leaves doctor, date and time alone and makes no row
    pending or confirmed that was not keeps the constraint. *)
Lemma unique_map (g : Appointment -> Appointment) (rows : list Appointment) :
  (forall a, doctor (g a) = doctor a /\
             appointment_date (g a) = appointment_date a /\
             appointment_time (g a) = appointment_time a) ->
  (forall a, In a rows -> is_active (status (g a)) = true ->
             is_active (status a) = true) ->
  unique_appointment_time rows = true ->
  unique_appointment_time (map g rows) = true.
Proof.
  intros Hslot. induction rows as [|a rest IH]; intros Hact Hu; [reflexivity|].
  cbn [map unique_appointment_time] in *. apply andb_true_iff in Hu.
  destruct Hu as [Ha Hrest]. apply andb_true_iff. split.
  - destruct (is_active (status (g a))) eqn:Hga; [|reflexivity]. cbn [andb].
    rewrite (Hact a (or_introl eq_refl) Hga) in Ha. cbn [andb] in Ha.
    apply negb_true_iff in Ha. apply negb_true_iff.
    destruct (existsb _ (map g rest)) eqn:Hex; [|reflexivity].
    apply existsb_exists in Hex. destruct Hex as [b' [Hin Hb']].
    apply in_map_iff in Hin. destruct Hin as [b [<- Hin]].
    apply andb_true_iff in Hb'. destruct Hb' as [Hgb Hsame].
    assert (Hex : existsb (fun b => is_active (status b) && same_slot a b) rest
                  = true).
    { apply existsb_exists. exists b. split; [exact Hin|].
      rewrite (Hact b (or_intror Hin) Hgb). cbn [andb].
      apply same_slot_iff in Hsame. apply same_slot_iff.
      destruct (Hslot a) as [E1 [E2 E3]], (Hslot b) as [F1 [F2 F3]].
      destruct Hsame as [S1 [S2 S3]]. repeat split; congruence. }
    congruence.
  - apply IH; [|exact Hrest]. intros b Hin. apply Hact. now right.
Qed.

Lemma update_keeps_slot (sel : list Z) (st : Status) (a : Appointment) :
  let g := fun a => if selected sel a then set_status a st else a in
  doctor (g a) = doctor a /\
  appointment_date (g a) = appointment_date a /\
  appointment_time (g a) = appointment_time a.
Proof.
  cbn. destruct (selected sel a); cbn; auto.
Qed.

(** X10: in a reachable state [cancel_appointments] always succeeds: it is
    never stopped by the constraint, every selected row ends cancelled and
    every other row is left as it was. *)
Theorem X10_cancel_always_succeeds (db : Database) (sel : list Z) :
  reachable db ->
  cancel_appointments db sel
  = Some (mkDatabase
            (map (fun a => if selected sel a then set_status a cancelled else a)
                 (appointments db))
            (schedules db)).
Proof.
  intros Hr. apply reachable_constraint in Hr.
  unfold cancel_appointments, update_status.
  rewrite unique_map; [reflexivity | | | exact Hr].
  - intros a. apply (update_keeps_slot sel cancelled a).
  - intros a _. destruct (selected sel a); [discriminate | auto].
Qed.

Lemma X10_cancel_always_succeeds_witness :
  cancel_appointments nine_taken [1]
  = Some (mkDatabase [booked 1 a_monday (hm 9 0) cancelled] monday_clinic).
Proof.
  apply (X10_cancel_always_succeeds nine_taken [1]).
  apply (reachable_step (mkDatabase [] monday_clinic)).
  - constructor.
  - apply (step_create a_monday _ 5 1 a_monday (hm 9 0) _ 1). reflexivity.
Defined.

(** X11: in a reachable state [confirm_appointments] succeeds whenever
    every selected appointment is pending or confirmed; it can be stopped
    by the constraint only when it revives a cancelled appointment. *)
Theorem X11_confirm_active_succeeds (db : Database) (sel : list Z) :
  reachable db ->
  (forall a, In a (appointments db) -> selected sel a = true ->
             is_active (status a) = true) ->
  confirm_appointments db sel
  = Some (mkDatabase
            (map (fun a => if selected sel a then set_status a confirmed else a)
                 (appointments db))
            (schedules db)).
Proof.
  intros Hr Hsel. apply reachable_constraint in Hr.
  unfold confirm_appointments, update_status.
  rewrite unique_map; [reflexivity | | | exact Hr].
  - intros a. apply (update_keeps_slot sel confirmed a).
  - intros a Hin. destruct (selected sel a) eqn:Hs; [|auto].
    intros _. now apply Hsel.
Qed.

Lemma X11_confirm_active_succeeds_witness :
  confirm_appointments nine_taken [1]
  = Some (mkDatabase [booked 1 a_monday (hm 9 0) confirmed] monday_clinic).
Proof.
  apply (X11_confirm_active_succeeds nine_taken [1]).
  - apply (reachable_step (mkDatabase [] monday_clinic)).
    + constructor.
    + apply (step_create a_monday _ 5 1 a_monday (hm 9 0) _ 1). reflexivity.
  - intros a [<-|[]] _. reflexivity.
Defined.

Lemma filter_two {A : Type} (f : A -> bool) (l : list A) (a b : A) :
  In a l -> In b l -> a <> b -> f a = true -> f b = true ->
  (2 <= length (filter f l))%nat.
Proof.
  induction l as [|x r IH]; intros Ha Hb Hne Hfa Hfb; [destruct Ha|].
  cbn [filter]. destruct Ha as [->|Ha], Hb as [->|Hb].
  - now destruct Hne.
  - rewrite Hfa. cbn [length]. pose proof (filter_length_pos f r b Hb Hfb). lia.
  - rewrite Hfb. cbn [length]. pose proof (filter_length_pos f r a Ha Hfa). lia.
  - specialize (IH Ha Hb Hne Hfa Hfb). destruct (f x); cbn [length]; lia.
Qed.

(** Two different stored rows never hold the same slot both pending or
    confirmed. *)
Lemma no_second_holder (db : Database) (a b : Appointment) :
  unique_appointment_time (appointments db) = true ->
  In a (appointments db) -> In b (appointments db) ->
  is_active (status a) = true -> is_active (status b) = true ->
  doctor b = doctor a -> appointment_date b = appointment_date a ->
  appointment_time b = appointment_time a ->
  a = b.
Proof.
  intros Hu Ha Hb Haa Hab Hd Hdt Ht.
  assert (Hdec : a = b \/ a <> b).
  { destruct a as [pa qa da dta ta sa], b as [pb qb db0 dtb tb sb].
    cbn in *. subst.
    destruct (pk_eqb pa pb) eqn:Hp; [apply pk_eqb_eq in Hp|].
    - destruct (qa =? qb) eqn:Hq; [apply Z.eqb_eq in Hq|].
      + destruct sa, sb; subst; auto; try discriminate; right; congruence.
      + right. intros [= ? ?]. subst. rewrite Z.eqb_refl in Hq. discriminate.
    - right. intros [= ? ?]. subst.
      assert (pk_eqb pb pb = true) by now apply pk_eqb_eq. congruence. }
  destruct Hdec as [Heq|Hne]; [exact Heq|]. exfalso.
  pose proof (unique_count _ Hu (doctor a) (appointment_date a)
                (appointment_time a)) as Hone.
  assert (2 <= length (filter (active_at (doctor a) (appointment_date a)
                                         (appointment_time a))
                              (appointments db)))%nat.
  { apply (filter_two _ _ a b); try assumption; apply active_at_iff; auto. }
  lia.
Qed.

Lemma save_rejected (today : date) (db : Database) (self : Appointment)
      (e : ValidationError) :
  save today db self = Invalid e -> clean today db self = Raise e.
Proof.
  unfold save. destruct (clean today db self) as [[]|e'].
  - destruct (write_row _ _) as [rows' k].
    destruct (unique_appointment_time rows'); discriminate.
  - now intros [= ->].
Qed.

(** X12: in a reachable state, once the pending or confirmed appointment
    that holds a slot has been cancelled, a new booking for that slot is
    neither rejected with SlotTaken nor stopped by the constraint. *)
Theorem X12_cancel_then_rebook
  (db db' : Database) (b : Appointment) (k : Z) (today : date) (pat : Z) :
  reachable db ->
  In b (appointments db) -> pk b = Some k -> is_active (status b) = true ->
  cancel_appointments db [k] = Some db' ->
  create today db' pat (doctor b) (appointment_date b) (appointment_time b)
    <> Invalid SlotTaken /\
  create today db' pat (doctor b) (appointment_date b) (appointment_time b)
    <> IntegrityError.
Proof.
  intros Hr Hin Hpk Hact Hcancel. apply reachable_constraint in Hr.
  unfold cancel_appointments, update_status in Hcancel. cbv zeta in Hcancel.
  destruct (unique_appointment_time (map _ (appointments db))) eqn:Hu';
    [|discriminate].
  injection Hcancel as <-. split.
  - intros Hrej. unfold create in Hrej. apply save_rejected in Hrej.
    apply (clean_spec today) in Hrej. destruct Hrej as [_ [a' [Hin' Hagainst]]].
    cbn [appointments] in Hin'. apply in_map_iff in Hin'.
    destruct Hin' as [a [<- Hina]].
    destruct Hagainst as [Hd [Hdt [Ht [Hst _]]]]. cbn in Hd, Hdt, Ht.
    apply is_active_iff in Hst.
    destruct (selected [k] a) eqn:Hsel; [discriminate|].
    assert (a = b).
    { apply (no_second_holder db); try assumption; congruence. }
    subst a. unfold selected in Hsel. rewrite Hpk in Hsel. cbn in Hsel.
    rewrite Z.eqb_refl in Hsel. discriminate.
  - apply create_passes_constraint. exact Hu'.
Qed.

Lemma X12_cancel_then_rebook_witness :
  create a_monday (mkDatabase [booked 1 a_monday (hm 9 0) cancelled] monday_clinic)
         6 1 a_monday (hm 9 0) <> Invalid SlotTaken /\
  create a_monday (mkDatabase [booked 1 a_monday (hm 9 0) cancelled] monday_clinic)
         6 1 a_monday (hm 9 0) <> IntegrityError.
Proof.
  assert (Hr : reachable nine_taken).
  { apply (reachable_step (mkDatabase [] monday_clinic)).
    - constructor.
    - apply (step_create a_monday _ 5 1 a_monday (hm 9 0) _ 1). reflexivity. }
  apply (X12_cancel_then_rebook nine_taken
           (mkDatabase [booked 1 a_monday (hm 9 0) cancelled] monday_clinic)
           (booked 1 a_monday (hm 9 0) pending) 1 a_monday 6 Hr).
  - now left.
  - reflexivity.
  - reflexivity.
  - reflexivity.
Defined.

(** X13: in a reachable state, validating a stored appointment again (its
    key is set and not 0) never reports SlotTaken: the conflict query leaves
    the appointment's own row out and no other row can hold its slot. *)
Theorem X13_stored_row_no_conflict
  (today : date) (db : Database) (a : Appointment) :
  reachable db -> In a (appointments db) -> pk_truthy (pk a) = true ->
  clean today db a <> Raise SlotTaken.
Proof.
  intros Hr Hin Hkey Hrej. apply reachable_constraint in Hr.
  apply (clean_spec today) in Hrej. destruct Hrej as [Hself [b [Hinb Hagainst]]].
  destruct Hagainst as [Hd [Hdt [Ht [Hst Hother]]]].
  apply is_active_iff in Hself, Hst.
  assert (a = b) by (apply (no_second_holder db); assumption).
  subst b. now apply (Hother Hkey).
Qed.

Lemma X13_stored_row_no_conflict_witness :
  In (booked 1 a_monday (hm 9 0) pending) (appointments nine_taken) /\
  clean a_monday nine_taken (booked 1 a_monday (hm 9 0) pending) <> Raise SlotTaken.
Proof.
  assert (Hr : reachable nine_taken).
  { apply (reachable_step (mkDatabase [] monday_clinic)).
    - constructor.
    - apply (step_create a_monday _ 5 1 a_monday (hm 9 0) _ 1). reflexivity. }
  split; [now left|].
  apply (X13_stored_row_no_conflict a_monday nine_taken
           (booked 1 a_monday (hm 9 0) pending) Hr).
  - now left.
  - reflexivity.
Defined.

(** ** Upcoming appointments and durations *)

Lemma filter_filter_le {A : Type} (p q r : A -> bool) (l : list A) :
  (forall a, q a = true -> p a = true -> r a = true) ->
  (length (filter p (filter q l)) <= length (filter r l))%nat.
Proof.
  intros Himp. induction l as [|a l IH]; cbn; [lia|].
  destruct (q a) eqn:Hq; cbn.
  - destruct (p a) eqn:Hp; cbn.
    + rewrite (Himp a Hq Hp). cbn. lia.
    + destruct (r a); cbn; lia.
  - destruct (r a); cbn; lia.
Qed.

Lemma status_eqb_eq (a b : Status) : status_eqb a b = true <-> a = b.
Proof. destruct a, b; cbn; split; congruence. Qed.

Lemma filter_twice {A : Type} (p q : A -> bool) (l : list A) :
  filter p (filter q l) = filter (fun a => q a && p a) l.
Proof.
  induction l as [|a l IH]; cbn; [reflexivity|].
  destruct (q a); cbn; [destruct (p a)|]; now rewrite IH.
Qed.

(** X14: in a reachable state the upcoming appointments of a doctor are
    confirmed, not past, and never double booked: for each date and time
    the list holds at most one appointment. *)
Theorem X14_upcoming_not_double_booked (today : date) (db : Database) (doc : Z) :
  reachable db ->
  (forall a, In a (upcoming_appointments today db doc) ->
     In a (appointments db) /\ doctor a = doc /\ status a = confirmed /\
     today <= appointment_date a) /\
  (forall (d : date) (t : time),
     (length (filter (fun a => ((appointment_date a =? d)%Z &&
                                time_eqb (appointment_time a) t)%bool)
                     (upcoming_appointments today db doc)) <= 1)%nat).
Proof.
  intros Hr. apply reachable_constraint in Hr. split.
  - intros a Hin. unfold upcoming_appointments in Hin.
    apply filter_In in Hin. destruct Hin as [Hin Hf].
    apply filter_In in Hin. destruct Hin as [Hin Hd].
    apply andb_true_iff in Hf. destruct Hf as [Hdate Hst].
    apply Z.eqb_eq in Hd. apply Z.leb_le in Hdate. apply status_eqb_eq in Hst.
    auto.
  - intros d t. pose proof (unique_count _ Hr doc d t) as Hone.
    unfold upcoming_appointments. rewrite filter_twice.
    etransitivity; [|exact Hone]. apply filter_filter_le.
    intros a Hdoc Hp. apply andb_true_iff in Hp. destruct Hp as [Hf Hp].
    apply andb_true_iff in Hf, Hp. destruct Hf as [_ Hst], Hp as [Hd Ht].
    apply status_eqb_eq in Hst. unfold active_at.
    rewrite Hst, Hdoc, Hd, Ht. reflexivity.
Qed.

Lemma X14_upcoming_not_double_booked_witness :
  (length (filter (fun a => ((appointment_date a =? a_monday)%Z &&
                             time_eqb (appointment_time a) (hm 9 0))%bool)
                  (upcoming_appointments a_monday
                     (mkDatabase [booked 1 a_monday (hm 9 0) confirmed] [])
                     1)) <= 1)%nat /\
  upcoming_appointments a_monday
    (mkDatabase [booked 1 a_monday (hm 9 0) confirmed] []) 1
  = [booked 1 a_monday (hm 9 0) confirmed].
Proof.
  assert (Hr : reachable (mkDatabase [booked 1 a_monday (hm 9 0) confirmed] [])).
  { apply (reachable_step (mkDatabase [] [])).
    - constructor.
    - apply (step_save a_monday _ (mkAppointment None 5 1 a_monday (hm 9 0) confirmed)
                       _ 1).
      reflexivity. }
  destruct (X14_upcoming_not_double_booked a_monday _ 1 Hr) as [_ Hone].
  split; [apply Hone | reflexivity].
Defined.

(** X15: [Appointment.duration] is the duration of the doctor's schedule
    row for the weekday of the appointment, whether or not that day is a
    working day, and 30 when the doctor has no row for that weekday. *)
Theorem X15_duration (db : Database) (self : Appointment) :
  unique_schedule_per_day (schedules db) ->
  (forall sch, In sch (schedules db) ->
     sched_doctor sch = doctor self ->
     day_of_week sch = weekday (appointment_date self) ->
     duration db self = appointment_duration sch) /\
  ((forall sch, In sch (schedules db) ->
      sched_doctor sch = doctor self ->
      day_of_week sch <> weekday (appointment_date self)) ->
   duration db self = 30).
Proof.
  intros Huniq. unfold duration. split.
  - intros sch Hin Hdoc Hday.
    destruct (first _) as [sch'|] eqn:Hq.
    + apply first_filter_some in Hq. destruct Hq as [Hin' Hday'].
      apply filter_In in Hin'. destruct Hin' as [Hin' Hdoc'].
      apply Z.eqb_eq in Hday', Hdoc'.
      f_equal. apply Huniq; congruence.
    + apply first_filter_none with (x := sch) in Hq.
      * rewrite Hday, Z.eqb_refl in Hq. discriminate.
      * apply filter_In. split; [exact Hin | now apply Z.eqb_eq].
  - intros Hnone. destruct (first _) as [sch'|] eqn:Hq; [|reflexivity].
    apply first_filter_some in Hq. destruct Hq as [Hin' Hday'].
    apply filter_In in Hin'. destruct Hin' as [Hin' Hdoc'].
    apply Z.eqb_eq in Hday', Hdoc'. now destruct (Hnone sch' Hin' Hdoc').
Qed.

Lemma X15_duration_witness :
  duration (mkDatabase [] monday_off) (request (hm 9 0)) = 30 /\
  duration (mkDatabase [] [mkSchedule 1 0 (hm 9 0) (hm 12 0) false 45])
           (request (hm 9 0)) = 45.
Proof.
  split.
  - destruct (X15_duration (mkDatabase [] monday_off) (request (hm 9 0)))
      as [Hrow _].
    + intros s1 s2 [<-|[]] [<-|[]] _ _. reflexivity.
    + apply (Hrow (morning_schedule 1 0 false)); [now left | reflexivity | reflexivity].
  - destruct (X15_duration (mkDatabase [] [mkSchedule 1 0 (hm 9 0) (hm 12 0) false 45])
                (request (hm 9 0))) as [Hrow _].
    + intros s1 s2 [<-|[]] [<-|[]] _ _. reflexivity.
    + apply (Hrow (mkSchedule 1 0 (hm 9 0) (hm 12 0) false 45));
        [now left | reflexivity | reflexivity].
Defined.

(** ** Slugs *)

Section SlugFacts.

Lemma append_cancel_l (a x y : String.string) :
  String.append a x = String.append a y -> x = y.
Proof.
  induction a as [|c a IH]; cbn; [auto|]. intros [= H]. auto.
Qed.

Lemma append_not_longer (a x : String.string) :
  a = String.append a x -> x = String.EmptyString.
Proof.
  induction a as [|c a IH]; cbn; [auto|]. intros [= H]. auto.
Qed.

Lemma decimal_inj (i j : nat) : Slug.decimal i = Slug.decimal j -> i = j.
Proof.
  unfold Slug.decimal. intros H.
  assert (Hu : Some (Nat.to_uint i) = Some (Nat.to_uint j)).
  { rewrite <- !DecimalString.NilEmpty.usu. now rewrite H. }
  injection Hu as Hu.
  rewrite <- (DecimalNat.Unsigned.of_to i), <- (DecimalNat.Unsigned.of_to j).
  now rewrite Hu.
Qed.

(** The rounds of the loop try pairwise different slugs. *)
Lemma candidate_inj (base : String.string) (i j : nat) :
  Slug.candidate base i = Slug.candidate base j -> i = j.
Proof.
  destruct i as [|i], j as [|j]; cbn [Slug.candidate]; unfold Slug.numbered.
  - reflexivity.
  - intros H. apply append_not_longer in H. discriminate.
  - intros H. symmetry in H. apply append_not_longer in H. discriminate.
  - intros H. apply append_cancel_l in H. apply append_cancel_l in H.
    now apply decimal_inj.
Qed.

Variable taken : String.string -> bool.
Variable base : String.string.

(** From round [c] the loop returns the first slug that is free. *)
Lemma slug_loop_finds (m : nat) :
  forall c fuel,
    taken (Slug.candidate base (c + m)) = false ->
    (forall j, (c <= j < c + m)%nat -> taken (Slug.candidate base j) = true) ->
    (m < fuel)%nat ->
    Slug.slug_loop fuel taken base (Slug.candidate base c) (S c)
    = Some (Slug.candidate base (c + m)).
Proof.
  induction m as [|m IH]; intros c fuel Hfree Htaken Hfuel;
    (destruct fuel as [|fuel]; [lia|]); cbn [Slug.slug_loop].
  - rewrite Nat.add_0_r in Hfree. rewrite Hfree. now rewrite Nat.add_0_r.
  - rewrite (Htaken c) by lia.
    change (Slug.numbered base (S c)) with (Slug.candidate base (S c)).
    rewrite (IH (S c) fuel); [f_equal; f_equal; lia | | | lia].
    + now replace (S c + m)%nat with (c + S m)%nat by lia.
    + intros j Hj. apply Htaken. lia.
Qed.

(** Among the first rounds a free slug has a first one. *)
Lemma first_free (n : nat) :
  taken (Slug.candidate base n) = false ->
  exists k, (k <= n)%nat /\ taken (Slug.candidate base k) = false /\
            forall j, (j < k)%nat -> taken (Slug.candidate base j) = true.
Proof.
  induction n as [n IH] using lt_wf_ind. intros Hfree.
  destruct (existsb (fun j => negb (taken (Slug.candidate base j))) (seq 0 n))
    eqn:Hex.
  - apply existsb_exists in Hex. destruct Hex as [j [Hin Hj]].
    apply in_seq in Hin. apply negb_true_iff in Hj.
    destruct (IH j ltac:(lia) Hj) as [k [Hk Hrest]].
    exists k. split; [lia | exact Hrest].
  - exists n. split; [lia|]. split; [exact Hfree|]. intros j Hj.
    destruct (taken (Slug.candidate base j)) eqn:Htj; [reflexivity|].
    assert (existsb (fun j => negb (taken (Slug.candidate base j))) (seq 0 n)
            = true).
    { apply existsb_exists. exists j. split; [apply in_seq; lia|].
      now rewrite Htj. }
    congruence.
Qed.

(** When every taken slug is one of [used], one of the first
    [length used + 1] rounds finds a free slug. *)
Lemma some_round_free (used : list String.string) :
  (forall s, taken s = true -> In s used) ->
  exists n, (n <= length used)%nat /\ taken (Slug.candidate base n) = false.
Proof.
  intros Hused.
  destruct (existsb (fun j => negb (taken (Slug.candidate base j)))
                    (seq 0 (S (length used)))) eqn:Hex.
  - apply existsb_exists in Hex. destruct Hex as [j [Hin Hj]].
    apply in_seq in Hin. apply negb_true_iff in Hj. exists j. split; [lia|exact Hj].
  - exfalso.
    assert (Hall : forall j, (j < S (length used))%nat ->
                     taken (Slug.candidate base j) = true).
    { intros j Hj. destruct (taken (Slug.candidate base j)) eqn:Htj; [reflexivity|].
      assert (existsb (fun j => negb (taken (Slug.candidate base j)))
                      (seq 0 (S (length used))) = true).
      { apply existsb_exists. exists j. split; [apply in_seq; lia|].
        now rewrite Htj. }
      congruence. }
    assert (Hlen : (length (map (Slug.candidate base) (seq 0 (S (length used))))
                    <= length used)%nat).
    { apply NoDup_incl_length.
      - apply Finite.Injective_map_NoDup; [|apply seq_NoDup].
        intros i j. apply candidate_inj.
      - intros s Hin. apply in_map_iff in Hin. destruct Hin as [j [<- Hj]].
        apply in_seq in Hj. apply Hused, Hall. lia. }
    rewrite length_map, length_seq in Hlen. lia.
Qed.

(** With more fuel than there are used slugs the loop ends, on the first
    candidate that is free. *)
Lemma unique_slug_spec (used : list String.string) (fuel : nat) :
  (forall s, taken s = true -> In s used) ->
  (length used < fuel)%nat ->
  exists k, (k <= length used)%nat /\
            Slug.unique_slug fuel taken base = Some (Slug.candidate base k) /\
            taken (Slug.candidate base k) = false /\
            forall j, (j < k)%nat -> taken (Slug.candidate base j) = true.
Proof.
  intros Hused Hfuel. destruct (some_round_free used Hused) as [n [Hn Hfree]].
  destruct (first_free n Hfree) as [k [Hk [Hkfree Hbefore]]].
  exists k. split; [lia|]. split; [|split; assumption].
  unfold Slug.unique_slug.
  apply (slug_loop_finds k 0 fuel); [exact Hkfree | | lia].
  intros j Hj. apply Hbefore. lia.
Qed.

End SlugFacts.

Lemma hospital_taken_used (rows : list Hospital.t) (self : Hospital.t)
      (s : String.string) :
  Hospital.slug_taken rows self s = true <->
  exists h, In h rows /\ Slug.other_row (Hospital.pk self) (Hospital.pk h) = true /\
            Hospital.slug h = s.
Proof.
  unfold Hospital.slug_taken. rewrite exists_filter. split.
  - intros [h [Hin Hother]]. apply filter_In in Hin. destruct Hin as [Hin Hs].
    apply String.eqb_eq in Hs. exists h. auto.
  - intros [h [Hin [Hother Hs]]]. exists h. split; [|exact Hother].
    apply filter_In. split; [exact Hin | now apply String.eqb_eq].
Qed.

(** X16: [Hospital.save] leaves a slug that is not blank as it is.  For a
    blank slug the loop ends within one round more than there are hospitals;
    the slug it sets is the first of slugify(name), slugify(name)-1,
    slugify(name)-2, ... that no other hospital has, so every earlier
    candidate is the slug of another hospital and the slug set is the slug
    of none. *)
Theorem X16_hospital_save_slug
  (slugify : String.string -> String.string) (fuel : nat)
  (rows : list Hospital.t) (self : Hospital.t) :
  (length rows < fuel)%nat ->
  (Hospital.slug self <> String.EmptyString ->
   Hospital.save slugify fuel rows self = Some self) /\
  (Hospital.slug self = String.EmptyString ->
   exists k, (k <= length rows)%nat /\
     Hospital.save slugify fuel rows self
     = Some (Hospital.set_slug self
               (Slug.candidate (slugify (Hospital.name self)) k)) /\
     (forall h, In h rows ->
        Slug.other_row (Hospital.pk self) (Hospital.pk h) = true ->
        Hospital.slug h <> Slug.candidate (slugify (Hospital.name self)) k) /\
     (forall j, (j < k)%nat ->
        exists h, In h rows /\
          Slug.other_row (Hospital.pk self) (Hospital.pk h) = true /\
          Hospital.slug h = Slug.candidate (slugify (Hospital.name self)) j)).
Proof.
  intros Hfuel. unfold Hospital.save. split.
  - intros Hset. apply String.eqb_neq in Hset. now rewrite Hset.
  - intros Hblank. apply String.eqb_eq in Hblank. rewrite Hblank.
    destruct (unique_slug_spec (Hospital.slug_taken rows self)
                (slugify (Hospital.name self)) (map Hospital.slug rows) fuel)
      as [k [Hk [Hrun [Hfree Hbefore]]]].
    + intros s Hs. apply hospital_taken_used in Hs.
      destruct Hs as [h [Hin [_ <-]]]. now apply in_map.
    + now rewrite length_map.
    + rewrite length_map in Hk. exists k. split; [exact Hk|]. rewrite Hrun.
      split; [reflexivity|]. split.
      * intros h Hin Hother Hs.
        assert (Hospital.slug_taken rows self
                  (Slug.candidate (slugify (Hospital.name self)) k) = true)
          by (apply hospital_taken_used; exists h; auto).
        congruence.
      * intros j Hj. apply hospital_taken_used. now apply Hbefore.
Qed.

Lemma X16_hospital_save_slug_witness :
  exists k, (k <= 1)%nat /\
    Hospital.save city_slugify 2 [city_hospital] second_city_hospital
    = Some (Hospital.set_slug second_city_hospital
              (Slug.candidate (city_slugify (Hospital.name second_city_hospital)) k)).
Proof.
  destruct (X16_hospital_save_slug city_slugify 2 [city_hospital]
              second_city_hospital) as [_ Hblank].
  - cbn; lia.
  - destruct (Hblank eq_refl) as [k [Hk [Hsave _]]].
    exists k. split; [exact Hk | exact Hsave].
Defined.

Lemma patient_taken_used (rows : list Patient.t) (self : Patient.t)
      (s : String.string) :
  Patient.slug_taken rows self s = true <->
  exists p, In p rows /\ Slug.other_row (Patient.pk self) (Patient.pk p) = true /\
            Patient.slug p = s.
Proof.
  unfold Patient.slug_taken. rewrite exists_filter. split.
  - intros [p [Hin Hother]]. apply filter_In in Hin. destruct Hin as [Hin Hs].
    apply String.eqb_eq in Hs. exists p. auto.
  - intros [p [Hin [Hother Hs]]]. exists p. split; [|exact Hother].
    apply filter_In. split; [exact Hin | now apply String.eqb_eq].
Qed.

(** X17: [Patient.save] sets a blank slug to the first of
    slugify(last_name-first_name) and that slug followed by -1, -2, ... which
    no other patient has, within one round more than there are patients; the
    slug set is the slug of no other patient. *)
Theorem X17_patient_save_slug
  (slugify : String.string -> String.string) (fuel : nat)
  (rows : list Patient.t) (self : Patient.t) :
  (length rows < fuel)%nat ->
  Patient.slug self = String.EmptyString ->
  let base := slugify (String.append (Patient.last_name self)
                         (String.append "-" (Patient.first_name self))) in
  exists k, (k <= length rows)%nat /\
    Patient.save slugify fuel rows self
    = Some (Patient.set_slug self (Slug.candidate base k)) /\
    (forall p, In p rows ->
       Slug.other_row (Patient.pk self) (Patient.pk p) = true ->
       Patient.slug p <> Slug.candidate base k) /\
    (forall j, (j < k)%nat ->
       exists p, In p rows /\
         Slug.other_row (Patient.pk self) (Patient.pk p) = true /\
         Patient.slug p = Slug.candidate base j).
Proof.
  intros Hfuel Hblank base. unfold Patient.save.
  apply String.eqb_eq in Hblank. rewrite Hblank. fold base.
  destruct (unique_slug_spec (Patient.slug_taken rows self) base
              (map Patient.slug rows) fuel)
    as [k [Hk [Hrun [Hfree Hbefore]]]].
  - intros s Hs. apply patient_taken_used in Hs.
    destruct Hs as [p [Hin [_ <-]]]. now apply in_map.
  - now rewrite length_map.
  - rewrite length_map in Hk. exists k. split; [exact Hk|]. rewrite Hrun.
    split; [reflexivity|]. split.
    + intros p Hin Hother Hs.
      assert (Patient.slug_taken rows self (Slug.candidate base k) = true)
        by (apply patient_taken_used; exists p; auto).
      congruence.
    + intros j Hj. apply patient_taken_used. now apply Hbefore.
Qed.

Lemma X17_patient_save_slug_witness :
  exists k, (k <= 0)%nat /\
    Patient.save (fun s => s) 1 [] ann_lee
    = Some (Patient.set_slug ann_lee (Slug.candidate lee_ann_slug k)).
Proof.
  destruct (X17_patient_save_slug (fun s => s) 1 [] ann_lee)
    as [k [Hk [Hsave _]]].
  - cbn; lia.
  - reflexivity.
  - exists k. split; [exact Hk | exact Hsave].
Defined.

(** ** Patients, hospitals and records *)

Lemma calendar_ltb_false (a b : Calendar.ymd) :
  Calendar.ltb a b = false <->
  Calendar.year b < Calendar.year a \/
  (Calendar.year b = Calendar.year a /\
   (Calendar.month b < Calendar.month a \/
    (Calendar.month b = Calendar.month a /\ Calendar.day b <= Calendar.day a))).
Proof.
  unfold Calendar.ltb, Calendar.md_ltb.
  destruct (Z.ltb_spec (Calendar.year a) (Calendar.year b)),
           (Z.eqb_spec (Calendar.year a) (Calendar.year b)),
           (Z.ltb_spec (Calendar.month a) (Calendar.month b)),
           (Z.eqb_spec (Calendar.month a) (Calendar.month b)),
           (Z.ltb_spec (Calendar.day a) (Calendar.day b));
    cbn; split; intros Hside; try reflexivity; try discriminate; lia.
Qed.

Lemma age_at_least (today : Calendar.ymd) (p : Patient.t) (k : Z) :
  k <= Patient.age today p <->
  Calendar.ltb today (Calendar.years_after (Patient.date_of_birth p) k) = false.
Proof.
  unfold Patient.age, Calendar.ltb, Calendar.md_ltb, Calendar.years_after.
  cbn [Calendar.year Calendar.month Calendar.day].
  destruct (Patient.date_of_birth p) as [by_ bm bd], today as [ty tm td].
  cbn [Calendar.year Calendar.month Calendar.day].
  destruct (Z.ltb_spec tm bm), (Z.eqb_spec tm bm), (Z.ltb_spec td bd),
           (Z.ltb_spec ty (by_ + k)), (Z.eqb_spec ty (by_ + k));
    cbn; split; intros Hside; try reflexivity; try discriminate; lia.
Qed.

(** X18: [Patient.age] counts the anniversaries of the date of birth that
    have come: the age is at least k exactly when today is not before the
    date k years after the birth, dates compared by year, month and day. *)
Theorem X18_age_counts_anniversaries (today : Calendar.ymd) (p : Patient.t) (k : Z) :
  k <= Patient.age today p <->
  Calendar.ltb today (Calendar.years_after (Patient.date_of_birth p) k) = false.
Proof.
  apply age_at_least.
Qed.

(** X19: the age of a patient is negative exactly when [Patient.clean]
    raises for the same today, that is when the date of birth is in the
    future; and the age never decreases as today moves on. *)
Theorem X19_age_and_clean (today : Calendar.ymd) (p : Patient.t) :
  (Patient.clean_raises today p = true <-> Patient.age today p < 0) /\
  (forall later, Calendar.ltb later today = false ->
     Patient.age today p <= Patient.age later p).
Proof.
  split.
  - pose proof (age_at_least today p 0) as H0.
    unfold Patient.clean_raises.
    assert (Heq : Calendar.years_after (Patient.date_of_birth p) 0
                  = Patient.date_of_birth p).
    { destruct (Patient.date_of_birth p) as [y m d].
      unfold Calendar.years_after. cbn. f_equal. lia. }
    rewrite Heq in H0.
    destruct (Calendar.ltb today (Patient.date_of_birth p)).
    + split; [intros _|reflexivity].
      destruct (Z_lt_le_dec (Patient.age today p) 0) as [Hneg|Hnn]; [exact Hneg|].
      apply H0 in Hnn. discriminate.
    + split; [discriminate|]. intros Hneg.
      assert (0 <= Patient.age today p) by now apply H0. lia.
  - intros later Hlater.
    apply (age_at_least later p (Patient.age today p)).
    pose proof (proj1 (age_at_least today p (Patient.age today p)) (Z.le_refl _))
      as Htoday.
    apply calendar_ltb_false in Hlater, Htoday. apply calendar_ltb_false. lia.
Qed.

(** X20: a hospital whose hours [Hospital.clean] rejects
    (start_time >= end_time) is never open; one it accepts is open at its
    opening hour and closed at its closing hour. *)
Theorem X20_hospital_hours (h : Hospital.t) :
  (Hospital.clean_raises h = true ->
   forall hour, Hospital.is_open_now hour h = false) /\
  (Hospital.clean_raises h = false ->
   Hospital.is_open_now (Hospital.start_time h) h = true /\
   Hospital.is_open_now (Hospital.end_time h) h = false).
Proof.
  unfold Hospital.clean_raises, Hospital.is_open_now. split.
  - intros Hraise hour. apply Z.leb_le in Hraise.
    destruct (Z.leb_spec (Hospital.start_time h) hour),
             (Z.ltb_spec hour (Hospital.end_time h)); cbn; try reflexivity; lia.
  - intros Hok. apply Z.leb_gt in Hok. split.
    + apply andb_true_iff. split; [apply Z.leb_le | apply Z.ltb_lt]; lia.
    + apply andb_false_iff. right. apply Z.ltb_ge. lia.
Qed.

